(** * Pipeline ETL del refugio de mascotas: modelo y verificación

    Embedding superficial de [pipeline/pipeline.py] (extracción,
    transformación/validación, respaldo y orquestación) y de la parte del
    esquema de [backend/database.py] que el pipeline consume. *)

From stdpp Require Import base option list strings pretty gmap sorting.

Open Scope string_scope.
Open Scope list_scope.
Open Scope Z_scope.

(** ** Valores de Python que circulan por el pipeline

    Las filas llegan como [dict(row._mapping)]: cada columna es [None], un
    [bool], un [int], un [str] o un [datetime]. Un [datetime] se representa
    por su texto [str(...)], que lo determina. *)

Inductive valor : Type :=
  | VNone
  | VBool (b : bool)
  | VInt (z : Z)
  | VStr (s : string)
  | VFecha (s : string).

(** Excepciones que el código puede levantar. *)
Inductive excepcion : Type :=
  | KeyError (clave : string)
  | TypeError
  | ValueErrorTablas (faltantes : gset string)
  | ValueErrorCsv (claves : list string)
  | OSError (ruta : string)
  | FileNotFoundError (ruta : string).

Inductive resultado (A : Type) : Type :=
  | Ok (a : A)
  | Error (e : excepcion).
Arguments Ok {A} a.
Arguments Error {A} e.

Definition res_bind {A B} (r : resultado A) (f : A → resultado B) : resultado B :=
  match r with
  | Ok a => f a
  | Error e => Error e
  end.

Module Py.

(** [bool] es subclase de [int]: [True == 1], [False == 0]. *)
Definition como_int (v : valor) : option Z :=
  match v with
  | VInt z => Some z
  | VBool b => Some (if b then 1 else 0)
  | _ => None
  end.

(** [a <= b] cuando uno de los operandos es un entero, que es como lo usa el
    pipeline: compara números y levanta [TypeError] si el otro operando es
    [None], un [str] o un [datetime]. *)
Definition le (a b : valor) : resultado bool :=
  match como_int a, como_int b with
  | Some x, Some y => Ok (x <=? y)
  | _, _ => Error TypeError
  end.

(** [a == b] *)
Definition eq (a b : valor) : bool :=
  match a, b with
  | VNone, VNone => true
  | VStr s, VStr t => bool_decide (s = t)
  | VFecha s, VFecha t => bool_decide (s = t)
  | _, _ =>
      match como_int a, como_int b with
      | Some x, Some y => x =? y
      | _, _ => false
      end
  end.

(** [v is not None] *)
Definition no_es_none (v : valor) : bool :=
  match v with VNone => false | _ => true end.

(** Valor de verdad de [v] en un [if]. *)
Definition verdad (v : valor) : bool :=
  match v with
  | VNone => false
  | VBool b => b
  | VInt z => negb (z =? 0)
  | VStr s => negb (bool_decide (s = String.EmptyString))
  | VFecha _ => true
  end.

(** [str(v)], lo que interpola un f-string. *)
Definition str (v : valor) : string :=
  match v with
  | VNone => "None"
  | VBool true => "True"
  | VBool false => "False"
  | VInt z => pretty z
  | VStr s => s
  | VFecha s => s
  end.

(** [x in conjunto]: un [set] compara por [==] (con el mismo hash). El
    conjunto se representa por la lista de sus elementos; sólo se consulta
    la pertenencia. *)
Definition pertenece (x : valor) (conjunto : list valor) : bool :=
  existsb (eq x) conjunto.

End Py.

(** ** Modelo de datos *)

(** Un registro es un [dict] de nombre de columna a valor; conserva el orden
    de inserción de las claves. *)
Abbreviation registro := (list (string * valor)).

Fixpoint buscar {A} (k : string) (d : list (string * A)) : option A :=
  match d with
  | [] => None
  | (k', v) :: resto => if bool_decide (k' = k) then Some v else buscar k resto
  end.

(** [d.get(k, defecto)] *)
Definition get (d : registro) (k : string) (defecto : valor) : valor :=
  default defecto (buscar k d).

(** [d.keys()] *)
Definition keys {A} (d : list (string * A)) : list string := d.*1.

(** Resultado de la extracción: [dict] de nombre de tabla a lista de filas. *)
Abbreviation datos_t := (list (string * list registro)).

(** [datos[k]] *)
Definition subindice (datos : datos_t) (k : string) : resultado (list registro) :=
  match buscar k datos with
  | Some filas => Ok filas
  | None => Error (KeyError k)
  end.

Record estadisticas_t : Type := {
  total_mascotas : nat;
  mascotas_adoptadas : nat;
  total_adopciones : nat
}.

(** Una entrada de [reporte["problemas"]]. La clave ["valor_actual"] sólo
    existe en los problemas de edad. *)
Record problema : Type := {
  tipo : string;
  tabla : string;
  id : valor;
  valor_actual : option valor;
  mensaje : string
}.

Record reporte_t : Type := {
  timestamp : string;
  estadisticas : estadisticas_t;
  problemas : list problema
}.

(** ** Transformación y validación: [transformar_datos] *)

(** [sum(1 for m in mascotas if m.get("adoptado", False))] *)
Fixpoint contar_adoptadas (mascotas : list registro) : nat :=
  match mascotas with
  | [] => 0%nat
  | m :: resto =>
      if Py.verdad (get m "adoptado" (VBool false))
      then S (contar_adoptadas resto)
      else contar_adoptadas resto
  end.

(** [0 <= edad <= 30]: comparación encadenada, con cortocircuito. *)
Definition en_rango (edad : valor) : resultado bool :=
  res_bind (Py.le (VInt 0) edad) (fun inf =>
    if inf then Py.le edad (VInt 30) else Ok false).

Definition problema_edad (idx : nat) (mascota : registro) (edad : valor) : problema :=
  {| tipo := "edad_invalida";
     tabla := "mascotas";
     id := get mascota "id" (VInt (Z.of_nat idx));
     valor_actual := Some edad;
     mensaje := "Edad " +:+ Py.str edad +:+ " fuera de rango (0-30)" |}.

(** Validación 1: el bucle [for idx, mascota in enumerate(...)], con la
    lista [reporte["problemas"]] como acumulador. *)
Fixpoint validar_edades (idx : nat) (mascotas : list registro)
    (acc : list problema) : resultado (list problema) :=
  match mascotas with
  | [] => Ok acc
  | mascota :: resto =>
      let edad := get mascota "edad" (VInt 0) in
      res_bind (en_rango edad) (fun dentro =>
        if negb dentro
        then validar_edades (S idx) resto (acc ++ [problema_edad idx mascota edad])
        else validar_edades (S idx) resto acc)
  end.

(** [{m.get("id") for m in mascotas if m.get("id") is not None}] *)
Fixpoint ids_mascotas (mascotas : list registro) : list valor :=
  match mascotas with
  | [] => []
  | m :: resto =>
      if Py.no_es_none (get m "id" VNone)
      then get m "id" VNone :: ids_mascotas resto
      else ids_mascotas resto
  end.

Definition problema_relacion (adopcion : registro) (mascota_id : valor) : problema :=
  {| tipo := "relacion_invalida";
     tabla := "adopciones";
     id := get adopcion "id" VNone;
     valor_actual := None;
     mensaje := "Mascota " +:+ Py.str mascota_id +:+ " no existe" |}.

(** Validación 2: el bucle [for adopcion in datos["adopciones"]]. *)
Fixpoint validar_relaciones (ids : list valor) (adopciones : list registro)
    (acc : list problema) : list problema :=
  match adopciones with
  | [] => acc
  | adopcion :: resto =>
      let mascota_id := get adopcion "mascota_id" VNone in
      if negb (Py.pertenece mascota_id ids)
      then validar_relaciones ids resto (acc ++ [problema_relacion adopcion mascota_id])
      else validar_relaciones ids resto acc
  end.

(** [ahora] es el texto de [datetime.now().isoformat()]. *)
Definition transformar_datos (ahora : string) (datos : datos_t)
    : resultado (datos_t * reporte_t) :=
  res_bind (subindice datos "mascotas") (fun mascotas =>
  res_bind (subindice datos "adopciones") (fun adopciones =>
    let est := {| total_mascotas := length mascotas;
                  mascotas_adoptadas := contar_adoptadas mascotas;
                  total_adopciones := length adopciones |} in
    res_bind (validar_edades 0 mascotas []) (fun ps =>
      let ids := ids_mascotas mascotas in
      let ps' := validar_relaciones ids adopciones ps in
      Ok (datos, {| timestamp := ahora; estadisticas := est; problemas := ps' |}))))
.

(** ** Efectos: disco, consola y lecturas del almacén *)

(** Lo que queda en un archivo. El texto exacto (comillas del CSV, sangría
    del JSON) no se modela: se guarda lo que se escribió. [Truncado] es un
    JSON cuya serialización se interrumpió. *)
Inductive contenido : Type :=
  | CSV (fieldnames : list string) (filas : list (list valor))
  | JSON (reporte : reporte_t)
  | Truncado.

(** Líneas de consola que dependen de los datos; los rótulos fijos se omiten. *)
Inductive evento : Type :=
  | EvConteo (mascotas adopciones : nat)
  | EvProblemas (mensajes : list string)
  | EvTablaVacia (tabla : string)
  | EvTablaGuardada (tabla : string) (n : nat) (archivo : string)
  | EvErrorTabla (tabla : string) (e : excepcion)
  | EvReporteGuardado (archivo : string)
  | EvErrorReporte (e : excepcion)
  | EvCompletado (archivos : list string) (est : estadisticas_t)
  | EvErrorPipeline (e : excepcion).

Record mundo : Type := {
  disco : gmap string contenido;
  directorios : list string;
  lecturas : list string;
  consola : list evento
}.

Definition mundo_inicial : mundo :=
  {| disco := ∅; directorios := []; lecturas := []; consola := [] |}.

(** Cómputos con estado y excepciones: una excepción conserva los efectos
    ya hechos. *)
Definition M (A : Type) : Type := mundo → resultado A * mundo.

Definition ret {A} (a : A) : M A := fun w => (Ok a, w).

Definition bind {A B} (m : M A) (f : A → M B) : M B :=
  fun w => match m w with
           | (Ok a, w') => f a w'
           | (Error e, w') => (Error e, w')
           end.

Definition raise {A} (e : excepcion) : M A := fun w => (Error e, w).

(** [try: m except Exception as e: h(e)] *)
Definition try_except {A} (m : M A) (h : excepcion → M A) : M A :=
  fun w => match m w with
           | (Ok a, w') => (Ok a, w')
           | (Error e, w') => h e w'
           end.

Definition lift {A} (r : resultado A) : M A := fun w => (r, w).

Notation "'haz' x '<-' m ';;' k" := (bind m (fun x => k))
  (at level 10, x name, m at level 99, k at level 200).
Notation "m ;;; k" := (bind m (fun _ => k))
  (at level 100, right associativity).

Definition print (ev : evento) : M unit := fun w =>
  (Ok tt, {| disco := disco w; directorios := directorios w;
             lecturas := lecturas w; consola := consola w ++ [ev] |}).

Definition poner_archivo (ruta : string) (c : contenido) : M unit := fun w =>
  (Ok tt, {| disco := <[ruta := c]> (disco w); directorios := directorios w;
             lecturas := lecturas w; consola := consola w |}).

Definition mkdir (ruta : string) : M unit := fun w =>
  (Ok tt, {| disco := disco w; directorios := directorios w ++ [ruta];
             lecturas := lecturas w; consola := consola w |}).

Definition anotar_lectura (tabla : string) : M unit := fun w =>
  (Ok tt, {| disco := disco w; directorios := directorios w;
             lecturas := lecturas w ++ [tabla]; consola := consola w |}).

(** Lo que el pipeline recibe de fuera en una corrida. *)
Record entorno : Type := {
  (** existe [backend/database.db] *)
  existe_bd : bool;
  (** catálogo del almacén: tabla ↦ filas en orden de almacenamiento *)
  almacen : gmap string (list registro);
  (** orden en que Python recorre el [set] [tablas_requeridas] (depende del
      hash de las cadenas): [true] si ["adopciones"] sale primero *)
  orden_invertido : bool;
  (** [open(ruta, 'w')] tiene éxito *)
  abre : string → bool;
  (** [datetime.now().isoformat()] al transformar *)
  ahora_iso : string;
  (** [datetime.now().strftime("%Y%m%d_%H%M%S")] al respaldar *)
  ahora_archivo : string;
  (** separador de [pathlib] en la plataforma *)
  sep : string
}.

(** [Path(a) / b] *)
Definition unir (e : entorno) (a b : string) : string := a +:+ sep e +:+ b.

(** ** Configuración: [configurar_rutas] *)

Record config_t : Type := { db_url : string; backups_dir : string }.

Definition proyecto_path : string := "C:\Users\keive\Downloads\entregable-4".

Definition configurar_rutas (e : entorno) : M config_t :=
  let db_path := unir e (unir e proyecto_path "backend") "database.db" in
  let backups_path := unir e (unir e proyecto_path "pipeline") "backups" in
  if negb (existe_bd e) then raise (FileNotFoundError db_path)
  else
    mkdir backups_path ;;;
    ret {| db_url := "sqlite:///" +:+ db_path; backups_dir := backups_path |}.

(** ** Extracción: [extraer_datos] *)

Definition tablas_requeridas : gset string := {["mascotas"; "adopciones"]}.

(** Orden de iteración de [tablas_requeridas]. *)
Definition recorrido_requeridas (e : entorno) : list string :=
  if orden_invertido e then ["adopciones"; "mascotas"]
  else ["mascotas"; "adopciones"].

(** [d[k] = v] sobre un [dict] ordenado. *)
Fixpoint asignar {A} (k : string) (v : A) (d : list (string * A)) : list (string * A) :=
  match d with
  | [] => [(k, v)]
  | (k', v') :: resto =>
      if bool_decide (k' = k) then (k, v) :: resto else (k', v') :: asignar k v resto
  end.

(** [conn.execute(metadata.tables[tabla].select())], filas como dicts. *)
Definition leer_tabla (e : entorno) (tabla : string) : M (list registro) :=
  match almacen e !! tabla with
  | None => raise (KeyError tabla)
  | Some filas => anotar_lectura tabla ;;; ret filas
  end.

Fixpoint extraer_tablas (e : entorno) (tablas : list string) (datos : datos_t)
    : M datos_t :=
  match tablas with
  | [] => ret datos
  | tabla :: resto =>
      haz filas <- leer_tabla e tabla ;;
      extraer_tablas e resto (asignar tabla filas datos)
  end.

Definition extraer_datos (e : entorno) : M datos_t :=
  let tablas_disponibles : gset string := dom (almacen e) in
  let faltantes := tablas_requeridas ∖ tablas_disponibles in
  if bool_decide (faltantes = ∅)
  then extraer_tablas e (recorrido_requeridas e) []
  else raise (ValueErrorTablas faltantes).

(** ** Carga: [guardar_backups] *)

(** [csv.DictWriter.writerow]: con [extrasaction='raise'] (el valor por
    omisión) una clave fuera de [fieldnames] levanta [ValueError]; las
    claves que faltan se rellenan con [restval = '']. *)
Definition fila_csv (fieldnames : list string) (r : registro) : resultado (list valor) :=
  match filter (fun k => k ∉ fieldnames) (keys r) with
  | [] => Ok ((fun k => get r k (VStr String.EmptyString)) <$> fieldnames)
  | sobrantes => Error (ValueErrorCsv sobrantes)
  end.

Definition agregar_fila (ruta : string) (fila : list valor) : M unit := fun w =>
  let c := match disco w !! ruta with
           | Some (CSV fs filas) => CSV fs (filas ++ [fila])
           | _ => CSV [] [fila]
           end in
  poner_archivo ruta c w.

Fixpoint escribir_filas (ruta : string) (fieldnames : list string)
    (registros : list registro) : M unit :=
  match registros with
  | [] => ret tt
  | r :: resto =>
      haz fila <- lift (fila_csv fieldnames r) ;;
      agregar_fila ruta fila ;;;
      escribir_filas ruta fieldnames resto
  end.

(** El bloque [with open(archivo_csv, 'w', ...)]: crea o trunca el archivo,
    escribe el encabezado y luego cada fila. *)
Definition escribir_csv (e : entorno) (ruta : string) (fieldnames : list string)
    (registros : list registro) : M unit :=
  if abre e ruta then
    poner_archivo ruta (CSV fieldnames []) ;;;
    escribir_filas ruta fieldnames registros
  else raise (OSError ruta).

(** [json.dump] no sabe serializar un [datetime]. *)
Definition serializable (v : valor) : bool :=
  match v with VFecha _ => false | _ => true end.

Definition reporte_serializable (r : reporte_t) : bool :=
  forallb (fun p => serializable (id p) && from_option serializable true (valor_actual p))
          (problemas r).

(** El bloque [with open(archivo_json, 'w', ...)] con [json.dump]. *)
Definition escribir_json (e : entorno) (ruta : string) (r : reporte_t) : M unit :=
  if abre e ruta then
    if reporte_serializable r then poner_archivo ruta (JSON r)
    else poner_archivo ruta Truncado ;;; raise TypeError
  else raise (OSError ruta).

Definition nombre_csv (tabla timestamp : string) : string :=
  tabla +:+ "_" +:+ timestamp +:+ ".csv".

Definition nombre_json (timestamp : string) : string :=
  "reporte_calidad_" +:+ timestamp +:+ ".json".

(** 1. Guardar datos tabulares: el bucle [for tabla, registros in
    datos.items()], con [archivos_generados] como acumulador. *)
Fixpoint guardar_tablas (e : entorno) (dir timestamp : string)
    (items : datos_t) (archivos_generados : list string) : M (list string) :=
  match items with
  | [] => ret archivos_generados
  | (tabla, registros) :: resto =>
      match registros with
      | [] =>
          print (EvTablaVacia tabla) ;;;
          guardar_tablas e dir timestamp resto archivos_generados
      | primero :: _ =>
          let archivo_csv := unir e dir (nombre_csv tabla timestamp) in
          let fieldnames := keys primero in
          haz archivos <- try_except
            (escribir_csv e archivo_csv fieldnames registros ;;;
             print (EvTablaGuardada tabla (length registros)
                                    (nombre_csv tabla timestamp)) ;;;
             ret (archivos_generados ++ [archivo_csv]))
            (fun ex => print (EvErrorTabla tabla ex) ;;; ret archivos_generados) ;;
          guardar_tablas e dir timestamp resto archivos
      end
  end.

(** 2. Guardar reporte de calidad. *)
Definition guardar_reporte (e : entorno) (dir timestamp : string)
    (reporte : reporte_t) (archivos_generados : list string) : M (list string) :=
  let archivo_json := unir e dir (nombre_json timestamp) in
  try_except
    (escribir_json e archivo_json reporte ;;;
     print (EvReporteGuardado (nombre_json timestamp)) ;;;
     ret (archivos_generados ++ [archivo_json]))
    (fun ex => print (EvErrorReporte ex) ;;; ret archivos_generados).

(** Devuelve la lista [archivos_generados]. *)
Definition guardar_backups (e : entorno) (datos : datos_t) (reporte : reporte_t)
    (dir : string) : M (list string) :=
  let timestamp := ahora_archivo e in
  haz archivos <- guardar_tablas e dir timestamp datos [] ;;
  guardar_reporte e dir timestamp reporte archivos.

(** ** Orquestación: [ejecutar_pipeline] *)

Definition ejecutar_pipeline (e : entorno) : M bool :=
  try_except
    (haz config <- configurar_rutas e ;;
     haz datos <- extraer_datos e ;;
     haz mascotas <- lift (subindice datos "mascotas") ;;
     haz adopciones <- lift (subindice datos "adopciones") ;;
     print (EvConteo (length mascotas) (length adopciones)) ;;;
     haz par <- lift (transformar_datos (ahora_iso e) datos) ;;
     let '(datos_transformados, reporte) := par in
     print (EvProblemas (mensaje <$> problemas reporte)) ;;;
     haz archivos <- guardar_backups e datos_transformados reporte (backups_dir config) ;;
     print (EvCompletado archivos (estadisticas reporte)) ;;;
     ret true)
    (fun ex => print (EvErrorPipeline ex) ;;; ret false).

(** * Nociones para enunciar las propiedades *)

(** La edad de cada mascota (o su valor por omisión) es un número. *)
Definition edades_comparables (mascotas : list registro) : Prop :=
  Forall (λ m, is_Some (Py.como_int (get m "edad" (VInt 0)))) mascotas.

(** La edad de la mascota es un número fuera de [0, 30]. *)
Definition fuera_de_rango (m : registro) : bool :=
  match Py.como_int (get m "edad" (VInt 0)) with
  | Some z => negb ((0 <=? z) && (z <=? 30))
  | None => false
  end.

(** Lo que aporta cada mascota, en orden, a la lista de problemas. *)
Fixpoint aportes_edad (idx : nat) (mascotas : list registro) : list (list problema) :=
  match mascotas with
  | [] => []
  | m :: resto =>
      (if fuera_de_rango m then [problema_edad idx m (get m "edad" (VInt 0))] else [])
      :: aportes_edad (S idx) resto
  end.

(** Lo que aporta una adopción a la lista de problemas. *)
Definition aporte_relacion (ids : list valor) (adopcion : registro) : list problema :=
  if Py.pertenece (get adopcion "mascota_id" VNone) ids then []
  else [problema_relacion adopcion (get adopcion "mascota_id" VNone)].

(** Una referencia coincide con alguna mascota: hay una fila de mascotas
    cuyo ["id"] no es [None] y es [==] a la referencia. *)
Definition coincide (ref : valor) (mascotas : list registro) : Prop :=
  ∃ m v, m ∈ mascotas ∧ buscar "id" m = Some v ∧ v ≠ VNone ∧ Py.eq ref v = true.

(** Las estadísticas que calcula [transformar_datos]. *)
Definition estadisticas_de (mascotas adopciones : list registro) : estadisticas_t :=
  {| total_mascotas := length mascotas;
     mascotas_adoptadas := contar_adoptadas mascotas;
     total_adopciones := length adopciones |}.

(** El mundo tras leer, en ese orden, las tablas dadas. *)
Definition anotar_lecturas (tablas : list string) (w : mundo) : mundo :=
  {| disco := disco w; directorios := directorios w;
     lecturas := lecturas w ++ tablas; consola := consola w |}.

(** El [dict] que arma la extracción, según el orden de recorrido. *)
Definition datos_extraidos (e : entorno) (mascotas adopciones : list registro)
    : datos_t :=
  if orden_invertido e
  then [("adopciones", adopciones); ("mascotas", mascotas)]
  else [("mascotas", mascotas); ("adopciones", adopciones)].

(** El mundo tras una corrida fallida: los directorios creados y el error en
    consola. *)
Definition con_error_de_pipeline (ex : excepcion) (dirs : list string) (w : mundo) : mundo :=
  {| disco := disco w; directorios := directorios w ++ dirs;
     lecturas := lecturas w; consola := consola w ++ [EvErrorPipeline ex] |}.

(** [Path(backups_dir) / f"{tabla}_{timestamp}.csv"] *)
Definition ruta_csv (e : entorno) (dir timestamp tabla : string) : string :=
  unir e dir (nombre_csv tabla timestamp).

(** [Path(backups_dir) / f"reporte_calidad_{timestamp}.json"] *)
Definition ruta_json (e : entorno) (dir timestamp : string) : string :=
  unir e dir (nombre_json timestamp).

(** Último carácter de una cadena. *)
Definition ultimo (s : string) : option Ascii.ascii :=
  last (String.list_ascii_of_string s).

(** El mundo tras dejar el disco en [d] y añadir [evs] a la consola. *)
Definition efecto (d : gmap string contenido) (evs : list evento) (w : mundo) : mundo :=
  {| disco := d; directorios := directorios w;
     lecturas := lecturas w; consola := consola w ++ evs |}.

(** Filas que llegan al archivo antes del primer fallo de [writerow]. *)
Fixpoint filas_escritas (fieldnames : list string) (registros : list registro)
    : list (list valor) :=
  match registros with
  | [] => []
  | r :: resto =>
      match fila_csv fieldnames r with
      | Ok fila => fila :: filas_escritas fieldnames resto
      | Error _ => []
      end
  end.

(** Primer fallo de [writerow], si lo hay. *)
Fixpoint error_filas (fieldnames : list string) (registros : list registro)
    : option excepcion :=
  match registros with
  | [] => None
  | r :: resto =>
      match fila_csv fieldnames r with
      | Ok _ => error_filas fieldnames resto
      | Error ex => Some ex
      end
  end.

(** Resultado de un bloque que termina bien o con la excepción dada. *)
Definition de_error (o : option excepcion) : resultado unit :=
  match o with None => Ok tt | Some ex => Error ex end.

(** La excepción con que termina la escritura de un CSV, si falla. *)
Definition error_csv (e : entorno) (ruta : string) (fieldnames : list string)
    (registros : list registro) : option excepcion :=
  if abre e ruta then error_filas fieldnames registros else Some (OSError ruta).

(** La excepción con que termina la escritura del JSON, si falla. *)
Definition error_json (e : entorno) (ruta : string) (r : reporte_t) : option excepcion :=
  if abre e ruta then (if reporte_serializable r then None else Some TypeError)
  else Some (OSError ruta).

(** La excepción que atrapa el [try] de una tabla, si la hay. *)
Definition fallo_tabla (e : entorno) (dir timestamp : string)
    (item : string * list registro) : option excepcion :=
  match item.2 with
  | [] => None
  | primero :: _ =>
      error_csv e (ruta_csv e dir timestamp item.1) (keys primero) item.2
  end.

(** La ruta que la tabla añade a [archivos_generados], si añade alguna. *)
Definition archivo_de_tabla (e : entorno) (dir timestamp : string)
    (item : string * list registro) : option string :=
  match item.2 with
  | [] => None
  | _ :: _ =>
      match fallo_tabla e dir timestamp item with
      | None => Some (ruta_csv e dir timestamp item.1)
      | Some _ => None
      end
  end.

(** La línea de consola que deja la tabla. *)
Definition evento_de_tabla (e : entorno) (dir timestamp : string)
    (item : string * list registro) : evento :=
  match item.2 with
  | [] => EvTablaVacia item.1
  | _ :: _ =>
      match fallo_tabla e dir timestamp item with
      | None => EvTablaGuardada item.1 (length item.2) (nombre_csv item.1 timestamp)
      | Some ex => EvErrorTabla item.1 ex
      end
  end.

(** El disco tras el intento de escribir la tabla. *)
Definition disco_tras_tabla (e : entorno) (dir timestamp : string)
    (d : gmap string contenido) (item : string * list registro)
    : gmap string contenido :=
  match item.2 with
  | [] => d
  | primero :: _ =>
      if abre e (ruta_csv e dir timestamp item.1)
      then <[ruta_csv e dir timestamp item.1 :=
               CSV (keys primero) (filas_escritas (keys primero) item.2)]> d
      else d
  end.

(** La ruta que el reporte añade a [archivos_generados], si se escribe. *)
Definition archivo_de_reporte (e : entorno) (dir timestamp : string) (r : reporte_t)
    : list string :=
  match error_json e (ruta_json e dir timestamp) r with
  | None => [ruta_json e dir timestamp]
  | Some _ => []
  end.

(** La línea de consola que deja el reporte. *)
Definition evento_de_reporte (e : entorno) (dir timestamp : string) (r : reporte_t)
    : evento :=
  match error_json e (ruta_json e dir timestamp) r with
  | None => EvReporteGuardado (nombre_json timestamp)
  | Some ex => EvErrorReporte ex
  end.

(** El disco tras el intento de escribir el reporte. *)
Definition disco_tras_reporte (e : entorno) (dir timestamp : string) (r : reporte_t)
    (d : gmap string contenido) : gmap string contenido :=
  if abre e (ruta_json e dir timestamp)
  then <[ruta_json e dir timestamp :=
           if reporte_serializable r then JSON r else Truncado]> d
  else d.

(** Cada fila de la tabla usa sólo columnas de la primera fila, como las
    filas de una misma tabla del almacén. *)
Definition filas_uniformes (registros : list registro) : Prop :=
  ∀ primero, head registros = Some primero →
             Forall (λ r, keys r ⊆ keys primero) registros.

(** La fila de un registro cuyas claves están todas en [fieldnames]. *)
Definition fila_completa (fieldnames : list string) (r : registro) : list valor :=
  (λ k, get r k (VStr String.EmptyString)) <$> fieldnames.

(** Entornos y datos de ejemplo. En [entorno_disco_parcial] el disco rechaza
    el CSV de mascotas. *)
Definition entorno_disco_parcial : entorno :=
  {| existe_bd := true; almacen := ∅; orden_invertido := false;
     abre := λ ruta, negb (bool_decide (ruta = "backups/mascotas_20240501_100000.csv"));
     ahora_iso := "2024-05-01T10:00:00"; ahora_archivo := "20240501_100000";
     sep := "/" |}.

Definition reporte_vacio : reporte_t :=
  {| timestamp := "2024-05-01T10:00:00";
     estadisticas := {| total_mascotas := 1; mascotas_adoptadas := 0;
                        total_adopciones := 1 |};
     problemas := [] |}.

Definition entorno_disco_sano : entorno :=
  {| existe_bd := true; almacen := ∅; orden_invertido := false;
     abre := λ _, true;
     ahora_iso := "2024-05-01T10:00:00"; ahora_archivo := "20240501_100000";
     sep := "/" |}.

Definition datos_sin_adopciones : datos_t :=
  [("mascotas", [[("id", VInt 1); ("edad", VInt 35)]; [("id", VInt 2); ("edad", VInt 3)]]);
   ("adopciones", [])].

Definition reporte_sin_adopciones : reporte_t :=
  {| timestamp := "2024-05-01T10:00:00";
     estadisticas := {| total_mascotas := 2; mascotas_adoptadas := 0;
                        total_adopciones := 0 |};
     problemas := [ {| tipo := "edad_invalida"; tabla := "mascotas"; id := VInt 1;
                       valor_actual := Some (VInt 35);
                       mensaje := "Edad 35 fuera de rango (0-30)" |} ] |}.

(** El mundo tras configurar y extraer con éxito y anunciar los conteos y
    los problemas. *)
Definition mundo_tras_validar (e : entorno) (mascotas adopciones : list registro)
    (r : reporte_t) (w : mundo) : mundo :=
  {| disco := disco w;
     directorios := directorios w ++ [unir e (unir e proyecto_path "pipeline") "backups"];
     lecturas := lecturas w ++ recorrido_requeridas e;
     consola := consola w ++ [EvConteo (length mascotas) (length adopciones);
                              EvProblemas (mensaje <$> problemas r)] |}.

Definition entorno_edad_nula : entorno :=
  {| existe_bd := true;
     almacen := {[ "mascotas" := [[("id", VInt 1); ("nombre", VStr "Max"); ("edad", VNone)]];
                   "adopciones" := [] ]};
     orden_invertido := false; abre := λ _, true;
     ahora_iso := "2024-05-01T10:00:00"; ahora_archivo := "20240501_100000";
     sep := "/" |}.

(** Un refugio con dos mascotas, dos adopciones y una tabla de usuarios que
    el pipeline no pide. *)
Definition almacen_refugio : gmap string (list registro) :=
  {[ "mascotas" := [[("id", VInt 1); ("edad", VInt 35); ("adoptado", VBool true)];
                    [("id", VInt 2); ("edad", VInt 3); ("adoptado", VBool false)]];
     "usuarios" := [[("id", VInt 9); ("username", VStr "ana")]];
     "adopciones" := [[("id", VInt 1); ("mascota_id", VInt 1)];
                      [("id", VInt 2); ("mascota_id", VInt 99)]] ]}.

Definition entorno_refugio : entorno :=
  {| existe_bd := true; almacen := almacen_refugio; orden_invertido := false;
     abre := λ _, true;
     ahora_iso := "2024-05-01T10:00:00"; ahora_archivo := "20240501_100000";
     sep := "/" |}.

(** El mismo almacén en otra corrida: otro reloj, el otro orden de recorrido
    y un disco que rechaza toda escritura. *)
Definition entorno_refugio_tarde : entorno :=
  {| existe_bd := true; almacen := almacen_refugio; orden_invertido := true;
     abre := λ _, false;
     ahora_iso := "2024-06-15T23:30:00"; ahora_archivo := "20240615_233000";
     sep := "/" |}.

(** El mundo tras una corrida que configura y extrae bien y falla al
    transformar. *)
Definition mundo_tras_error_de_datos (e : entorno) (mascotas adopciones : list registro)
    (ex : excepcion) (w : mundo) : mundo :=
  {| disco := disco w;
     directorios := directorios w ++ [unir e (unir e proyecto_path "pipeline") "backups"];
     lecturas := lecturas w ++ recorrido_requeridas e;
     consola := consola w ++ [EvConteo (length mascotas) (length adopciones);
                              EvErrorPipeline ex] |}.

(** * Propiedades *)

(** ** Lemas sobre los dicts *)

Lemma get_ausente (d : registro) (k : string) (defecto : valor) :
  buscar k d = None → get d k defecto = defecto.
Proof. unfold get. by intros ->. Qed.

Lemma get_presente (d : registro) (k : string) (defecto v : valor) :
  buscar k d = Some v → get d k defecto = v.
Proof. unfold get. by intros ->. Qed.

Lemma subindice_Ok (datos : datos_t) (k : string) (filas : list registro) :
  buscar k datos = Some filas → subindice datos k = Ok filas.
Proof. unfold subindice. by intros ->. Qed.

Lemma buscar_asignar_eq {A} (k : string) (v : A) (d : list (string * A)) :
  buscar k (asignar k v d) = Some v.
Proof.
  induction d as [|[k' v'] d IH]; simpl.
  - by rewrite bool_decide_eq_true_2.
  - destruct (bool_decide (k' = k)) eqn:E; simpl.
    + by rewrite bool_decide_eq_true_2.
    + by rewrite E.
Qed.

Lemma buscar_asignar_ne {A} (k k0 : string) (v : A) (d : list (string * A)) :
  k ≠ k0 → buscar k0 (asignar k v d) = buscar k0 d.
Proof.
  intros Hne. induction d as [|[k' v'] d IH]; simpl.
  - by rewrite bool_decide_eq_false_2.
  - destruct (bool_decide (k' = k)) eqn:E; simpl.
    + apply bool_decide_eq_true_1 in E as ->.
      by rewrite !bool_decide_eq_false_2.
    + by rewrite IH.
Qed.

(** ** La regla de edades *)

Lemma en_rango_numero (v : valor) (z : Z) :
  Py.como_int v = Some z → en_rango v = Ok ((0 <=? z) && (z <=? 30)).
Proof.
  intros Hv. unfold en_rango, Py.le. rewrite !Hv. simpl.
  by destruct (0 <=? z).
Qed.

Lemma en_rango_no_numero (v : valor) :
  Py.como_int v = None → en_rango v = Error TypeError.
Proof. intros Hv. unfold en_rango, Py.le. by rewrite Hv. Qed.

Lemma validar_edades_ok (mascotas : list registro) :
  ∀ idx acc, edades_comparables mascotas →
    validar_edades idx mascotas acc = Ok (acc ++ mjoin (aportes_edad idx mascotas)).
Proof.
  induction mascotas as [|m resto IH]; intros idx acc Hc; simpl.
  - by rewrite app_nil_r.
  - apply Forall_cons in Hc as [[z Hz] Hc].
    rewrite (en_rango_numero _ _ Hz). simpl.
    unfold fuera_de_rango. rewrite Hz.
    destruct (negb _); rewrite IH by done; simpl; [by rewrite <-app_assoc|done].
Qed.

Lemma validar_edades_error (mascotas : list registro) :
  ∀ idx acc, ¬ edades_comparables mascotas →
    validar_edades idx mascotas acc = Error TypeError.
Proof.
  induction mascotas as [|m resto IH]; intros idx acc Hc; simpl.
  - destruct Hc. constructor.
  - destruct (Py.como_int (get m "edad" (VInt 0))) as [z|] eqn:Hz.
    + rewrite (en_rango_numero _ _ Hz). simpl.
      assert (¬ edades_comparables resto) as Hr.
      { intros Hr. apply Hc. constructor; [by rewrite Hz|done]. }
      destruct (negb _); by apply IH.
    + by rewrite (en_rango_no_numero _ Hz).
Qed.

Lemma aportes_edad_length (mascotas : list registro) :
  ∀ idx, length (aportes_edad idx mascotas) = length mascotas.
Proof. induction mascotas; intros; simpl; [done|by rewrite IHmascotas]. Qed.

Lemma aportes_edad_lookup (mascotas : list registro) :
  ∀ idx i m, mascotas !! i = Some m →
    aportes_edad idx mascotas !! i =
      Some (if fuera_de_rango m
            then [problema_edad (idx + i) m (get m "edad" (VInt 0))] else []).
Proof.
  induction mascotas as [|m' resto IH]; intros idx [|i] m Hm; simplify_eq/=.
  - by rewrite Nat.add_0_r.
  - rewrite (IH _ _ _ Hm). by replace (S idx + i)%nat with (idx + S i)%nat by lia.
Qed.

Lemma aportes_edad_tipo (mascotas : list registro) :
  ∀ idx, Forall (λ p, tipo p = "edad_invalida") (mjoin (aportes_edad idx mascotas)).
Proof.
  induction mascotas as [|m resto IH]; intros idx; simpl; [constructor|].
  apply Forall_app. split; [|done].
  destruct (fuera_de_rango m); repeat constructor.
Qed.

(** ** La regla de integridad referencial *)

Lemma validar_relaciones_spec (ids : list valor) (adopciones : list registro) :
  ∀ acc, validar_relaciones ids adopciones acc =
           acc ++ mjoin (aporte_relacion ids <$> adopciones).
Proof.
  induction adopciones as [|a resto IH]; intros acc; simpl.
  - by rewrite app_nil_r.
  - unfold aporte_relacion at 1.
    destruct (Py.pertenece _ _); simpl; rewrite IH; [done|by rewrite <-app_assoc].
Qed.

Lemma aportes_relacion_tipo (ids : list valor) (adopciones : list registro) :
  Forall (λ p, tipo p = "relacion_invalida")
         (mjoin (aporte_relacion ids <$> adopciones)).
Proof.
  induction adopciones as [|a resto IH]; simpl; [constructor|].
  apply Forall_app. split; [|done].
  unfold aporte_relacion. destruct (Py.pertenece _ _); repeat constructor.
Qed.

Lemma elem_of_ids_mascotas (v : valor) (mascotas : list registro) :
  v ∈ ids_mascotas mascotas ↔
  ∃ m, m ∈ mascotas ∧ buscar "id" m = Some v ∧ v ≠ VNone.
Proof.
  induction mascotas as [|m resto IH]; simpl.
  - split; [by intros ?%elem_of_nil|by intros (? & ?%elem_of_nil & _)].
  - unfold get at 1 2. destruct (buscar "id" m) as [w|] eqn:Hw; simpl.
    + destruct (Py.no_es_none w) eqn:Hn.
      * rewrite elem_of_cons, IH. split.
        -- intros [->|(m' & ? & ?)].
           ++ exists m. split_and!; [left|done|by intros ->].
           ++ exists m'. split; [by right|done].
        -- intros (m' & [->|?]%elem_of_cons & Hb & Hv).
           ++ left. congruence.
           ++ right. by exists m'.
      * rewrite IH. split.
        -- intros (m' & ? & ?). exists m'. split; [by right|done].
        -- intros (m' & [->|?]%elem_of_cons & Hb & Hv).
           ++ rewrite Hw in Hb. simplify_eq. by destruct v.
           ++ by exists m'.
    + rewrite IH. split.
      * intros (m' & ? & ?). exists m'. split; [by right|done].
      * intros (m' & [->|?]%elem_of_cons & Hb & Hv); [congruence|by exists m'].
Qed.

Lemma pertenece_coincide (ref : valor) (mascotas : list registro) :
  Py.pertenece ref (ids_mascotas mascotas) = true ↔ coincide ref mascotas.
Proof.
  unfold Py.pertenece, coincide. rewrite existsb_exists. split.
  - intros (v & Hv%list_elem_of_In%elem_of_ids_mascotas & Heq).
    destruct Hv as (m & ? & ? & ?). by exists m, v.
  - intros (m & v & ? & ? & ? & ?). exists v. split; [|done].
    apply list_elem_of_In, elem_of_ids_mascotas. by exists m.
Qed.

Lemma none_no_pertenece (mascotas : list registro) :
  Py.pertenece VNone (ids_mascotas mascotas) = false.
Proof.
  apply not_true_is_false. intros (m & v & _ & _ & Hv & Heq)%pertenece_coincide.
  by destruct v.
Qed.

(** ** El reporte completo *)

Lemma transformar_datos_ok (ahora : string) (datos : datos_t)
    (mascotas adopciones : list registro) :
  buscar "mascotas" datos = Some mascotas →
  buscar "adopciones" datos = Some adopciones →
  edades_comparables mascotas →
  transformar_datos ahora datos =
    Ok (datos,
        {| timestamp := ahora;
           estadisticas := estadisticas_de mascotas adopciones;
           problemas :=
             mjoin (aportes_edad 0 mascotas) ++
             mjoin (aporte_relacion (ids_mascotas mascotas) <$> adopciones) |}).
Proof.
  intros Hm Ha Hc. unfold transformar_datos.
  rewrite (subindice_Ok _ _ _ Hm), (subindice_Ok _ _ _ Ha). simpl.
  rewrite (validar_edades_ok _ _ _ Hc). simpl.
  by rewrite validar_relaciones_spec.
Qed.

Lemma transformar_datos_TypeError (ahora : string) (datos : datos_t)
    (mascotas adopciones : list registro) :
  buscar "mascotas" datos = Some mascotas →
  buscar "adopciones" datos = Some adopciones →
  ¬ edades_comparables mascotas →
  transformar_datos ahora datos = Error TypeError.
Proof.
  intros Hm Ha Hc. unfold transformar_datos.
  rewrite (subindice_Ok _ _ _ Hm), (subindice_Ok _ _ _ Ha). simpl.
  by rewrite (validar_edades_error _ _ _ Hc).
Qed.

Lemma filter_todos {A} (P : A → Prop) `{∀ x, Decision (P x)} (l : list A) :
  Forall P l → filter P l = l.
Proof.
  induction 1 as [|x l Hx Hl IH]; [done|].
  by rewrite filter_cons_True, IH.
Qed.

Lemma filter_ninguno {A} (P : A → Prop) `{∀ x, Decision (P x)} (l : list A) :
  Forall (λ x, ¬ P x) l → filter P l = [].
Proof.
  induction 1 as [|x l Hx Hl IH]; [done|].
  by rewrite filter_cons_False, IH.
Qed.

Lemma contar_adoptadas_filter (mascotas : list registro) :
  contar_adoptadas mascotas =
    length (filter (λ m, Py.verdad (get m "adoptado" (VBool false)) = true) mascotas).
Proof.
  induction mascotas as [|m resto IH]; [done|]. simpl.
  destruct (Py.verdad _) eqn:E.
  - rewrite filter_cons_True by done. simpl. by rewrite IH.
  - rewrite filter_cons_False by (by rewrite E). done.
Qed.

Lemma filtro_edad (pe pr : list problema) :
  Forall (λ p, tipo p = "edad_invalida") pe →
  Forall (λ p, tipo p = "relacion_invalida") pr →
  filter (λ p, tipo p = "edad_invalida") (pe ++ pr) = pe.
Proof.
  intros He Hr. rewrite filter_app, (filter_todos _ _ He), filter_ninguno.
  - by rewrite app_nil_r.
  - eapply Forall_impl; [exact Hr|]. by intros p ->.
Qed.

Lemma filtro_relacion (pe pr : list problema) :
  Forall (λ p, tipo p = "edad_invalida") pe →
  Forall (λ p, tipo p = "relacion_invalida") pr →
  filter (λ p, tipo p = "relacion_invalida") (pe ++ pr) = pr.
Proof.
  intros He Hr. rewrite filter_app, (filter_todos _ _ Hr), filter_ninguno; [done|].
  eapply Forall_impl; [exact He|]. by intros p ->.
Qed.

(** Procedencia de los problemas de edad: índices crecientes de mascotas. *)
Lemma aportes_edad_procedencia (mascotas : list registro) :
  ∀ idx, ∃ indices : list nat,
    StronglySorted lt indices ∧
    Forall (λ i, (idx ≤ i)%nat) indices ∧
    Forall2 (λ i p, ∃ m, mascotas !! (i - idx)%nat = Some m ∧
                         p = problema_edad i m (get m "edad" (VInt 0)))
            indices (mjoin (aportes_edad idx mascotas)).
Proof.
  induction mascotas as [|m resto IH]; intros idx; simpl.
  - exists []. split_and!; constructor.
  - destruct (IH (S idx)) as (indices & Hs & Hge & Hp).
    assert (Forall2 (λ i p, ∃ m0, (m :: resto) !! (i - idx)%nat = Some m0 ∧
                                  p = problema_edad i m0 (get m0 "edad" (VInt 0)))
                    indices (mjoin (aportes_edad (S idx) resto))) as Hp'.
    { clear Hs IH. induction Hp as [|i p li ps (m0 & Hm0 & ->) Hp IHp]; [constructor|].
      apply Forall_cons in Hge as [Hi Hge]. constructor; [|by apply IHp].
      exists m0. split; [|done].
      by replace (i - idx)%nat with (S (i - S idx)) by lia. }
    destruct (fuera_de_rango m); simpl.
    + exists (idx :: indices). split_and!.
      * constructor; [done|]. eapply Forall_impl; [exact Hge|]. simpl. lia.
      * constructor; [lia|]. eapply Forall_impl; [exact Hge|]. simpl. lia.
      * constructor; [|done]. exists m. by rewrite Nat.sub_diag.
    + exists indices. split_and!; [done| |done].
      eapply Forall_impl; [exact Hge|]. simpl. lia.
Qed.

(** Procedencia de los problemas de relación. *)
Lemma aportes_relacion_procedencia (ids : list valor) (adopciones : list registro) :
  ∀ base : nat, ∃ indices : list nat,
    StronglySorted lt indices ∧
    Forall (λ j, (base ≤ j)%nat) indices ∧
    Forall2 (λ j p, ∃ a, adopciones !! (j - base)%nat = Some a ∧
                         p = problema_relacion a (get a "mascota_id" VNone))
            indices (mjoin (aporte_relacion ids <$> adopciones)).
Proof.
  induction adopciones as [|a resto IH]; intros base; simpl.
  - exists []. split_and!; constructor.
  - destruct (IH (S base)) as (indices & Hs & Hge & Hp).
    assert (Forall2 (λ j p, ∃ a0, (a :: resto) !! (j - base)%nat = Some a0 ∧
                                  p = problema_relacion a0 (get a0 "mascota_id" VNone))
                    indices (mjoin (aporte_relacion ids <$> resto))) as Hp'.
    { clear Hs IH. induction Hp as [|j p js ps (a0 & Ha0 & ->) Hp IHp]; [constructor|].
      apply Forall_cons in Hge as [Hj Hge]. constructor; [|by apply IHp].
      exists a0. split; [|done].
      by replace (j - base)%nat with (S (j - S base)) by lia. }
    unfold aporte_relacion at 1. destruct (Py.pertenece _ _); simpl.
    + exists indices. split_and!; [done| |done].
      eapply Forall_impl; [exact Hge|]. simpl. lia.
    + exists (base :: indices). split_and!.
      * constructor; [done|]. eapply Forall_impl; [exact Hge|]. simpl. lia.
      * constructor; [lia|]. eapply Forall_impl; [exact Hge|]. simpl. lia.
      * constructor; [|done]. exists a. by rewrite Nat.sub_diag.
Qed.

(** ** Teoremas sobre [transformar_datos] *)

(** C1. Con las dos tablas presentes y edades numéricas, la transformación
    devuelve un reporte cuyos problemas ["edad_invalida"] son, en orden, lo
    que aporta cada mascota: nada si su edad está en [0, 30] y exactamente un
    problema si está fuera, con tabla ["mascotas"], el ["id"] del registro (o
    su índice posicional si no tiene esa clave), la edad como valor actual y
    el mensaje con la edad y el rango. *)
Theorem regla_de_edades (ahora : string) (datos : datos_t)
    (mascotas adopciones : list registro) :
  buscar "mascotas" datos = Some mascotas →
  buscar "adopciones" datos = Some adopciones →
  edades_comparables mascotas →
  ∃ (reporte : reporte_t) (aportes : list (list problema)),
    transformar_datos ahora datos = Ok (datos, reporte) ∧
    filter (λ p, tipo p = "edad_invalida") (problemas reporte) = mjoin aportes ∧
    length aportes = length mascotas ∧
    ∀ (i : nat) (m : registro) (z : Z),
      mascotas !! i = Some m →
      Py.como_int (get m "edad" (VInt 0)) = Some z →
      (0 ≤ z ≤ 30 → aportes !! i = Some []) ∧
      (¬ (0 ≤ z ≤ 30) →
         aportes !! i =
           Some [ {| tipo := "edad_invalida";
                     tabla := "mascotas";
                     id := default (VInt (Z.of_nat i)) (buscar "id" m);
                     valor_actual := Some (VInt z);
                     mensaje := "Edad " +:+ pretty z +:+ " fuera de rango (0-30)" |} ]).
Proof.
  intros Hm Ha Hc. eexists _, (aportes_edad 0 mascotas).
  split; [by apply transformar_datos_ok|]. simpl. split_and!.
  - apply filtro_edad; [apply aportes_edad_tipo|apply aportes_relacion_tipo].
  - apply aportes_edad_length.
  - intros i m z Hi Hz. rewrite (aportes_edad_lookup _ _ _ _ Hi).
    unfold fuera_de_rango. rewrite Hz. split.
    + intros [H0 H30]. apply Z.leb_le in H0, H30. by rewrite H0, H30.
    + intros Hfuera.
      assert ((0 <=? z) && (z <=? 30) = false) as ->.
      { apply not_true_is_false. intros [?%Z.leb_le ?%Z.leb_le]%andb_true_iff. lia. }
      simpl. unfold problema_edad, get at 1. simpl.
      destruct (get m "edad" (VInt 0)) as [|b|z'| |]; simplify_eq/=; [|done].
      destruct b; lia.
Qed.

Lemma regla_de_edades_testigo :
  ∃ (reporte : reporte_t) (aportes : list (list problema)),
    transformar_datos "2024-05-01T10:00:00"
      [("mascotas", [[("id", VInt 1); ("edad", VInt 35)]; [("edad", VInt (-2))];
                     [("id", VInt 3); ("edad", VInt 30)]; [("id", VInt 4)]]);
       ("adopciones", [])] =
      Ok ([("mascotas", [[("id", VInt 1); ("edad", VInt 35)]; [("edad", VInt (-2))];
                         [("id", VInt 3); ("edad", VInt 30)]; [("id", VInt 4)]]);
           ("adopciones", [])], reporte) ∧
    filter (λ p, tipo p = "edad_invalida") (problemas reporte) = mjoin aportes ∧
    aportes !! 1%nat =
      Some [ {| tipo := "edad_invalida"; tabla := "mascotas"; id := VInt 1;
                valor_actual := Some (VInt (-2));
                mensaje := "Edad -2 fuera de rango (0-30)" |} ] ∧
    aportes !! 2%nat = Some [] ∧ aportes !! 3%nat = Some [].
Proof.
  destruct (regla_de_edades "2024-05-01T10:00:00"
              [("mascotas", [[("id", VInt 1); ("edad", VInt 35)]; [("edad", VInt (-2))];
                             [("id", VInt 3); ("edad", VInt 30)]; [("id", VInt 4)]]);
               ("adopciones", [])]
              [[("id", VInt 1); ("edad", VInt 35)]; [("edad", VInt (-2))];
               [("id", VInt 3); ("edad", VInt 30)]; [("id", VInt 4)]] [])
    as (reporte & aportes & Hok & Hf & _ & Hap).
  - reflexivity.
  - reflexivity.
  - repeat constructor; by eexists.
  - exists reporte, aportes. split_and!; [done|done| | |].
    + apply (Hap 1%nat [("edad", VInt (-2))] (-2)); [done|done|lia].
    + apply (Hap 2%nat [("id", VInt 3); ("edad", VInt 30)] 30); [done|done|lia].
    + apply (Hap 3%nat [("id", VInt 4)] 0); [done|done|lia].
Defined.

(** C3. Con las dos tablas presentes y edades numéricas, los problemas
    ["relacion_invalida"] del reporte son, en orden, lo que aporta cada
    adopción: nada si su ["mascota_id"] coincide con el ["id"] (no nulo) de
    alguna mascota, y exactamente un problema si no coincide con ninguno, con
    tabla ["adopciones"], el ["id"] de la adopción y el mensaje que nombra la
    referencia. *)
Theorem regla_de_relaciones (ahora : string) (datos : datos_t)
    (mascotas adopciones : list registro) :
  buscar "mascotas" datos = Some mascotas →
  buscar "adopciones" datos = Some adopciones →
  edades_comparables mascotas →
  ∃ (reporte : reporte_t) (aportes : list (list problema)),
    transformar_datos ahora datos = Ok (datos, reporte) ∧
    filter (λ p, tipo p = "relacion_invalida") (problemas reporte) = mjoin aportes ∧
    Forall2 (λ (a : registro) (ap : list problema),
               let ref := get a "mascota_id" VNone in
               (coincide ref mascotas → ap = []) ∧
               (¬ coincide ref mascotas →
                  ap = [ {| tipo := "relacion_invalida";
                            tabla := "adopciones";
                            id := get a "id" VNone;
                            valor_actual := None;
                            mensaje := "Mascota " +:+ Py.str ref +:+ " no existe" |} ]))
            adopciones aportes.
Proof.
  intros Hm Ha Hc.
  eexists _, (aporte_relacion (ids_mascotas mascotas) <$> adopciones).
  split; [by apply transformar_datos_ok|]. simpl. split.
  - apply filtro_relacion; [apply aportes_edad_tipo|apply aportes_relacion_tipo].
  - apply Forall2_fmap_r, Forall_Forall2_diag, Forall_forall. intros a _. simpl.
    unfold aporte_relacion.
    destruct (Py.pertenece _ _) eqn:Hp.
    + split; [done|]. intros Hn. destruct Hn. by apply pertenece_coincide.
    + split; [|done]. intros Hco%pertenece_coincide. congruence.
Qed.

Lemma regla_de_relaciones_testigo :
  ∃ (reporte : reporte_t),
    transformar_datos "2024-05-01T10:00:00"
      [("mascotas", [[("id", VInt 1); ("edad", VInt 35)]; [("id", VInt 2); ("edad", VInt 3)]]);
       ("adopciones", [[("id", VInt 1); ("mascota_id", VInt 1)];
                       [("id", VInt 2); ("mascota_id", VInt 99)]])] =
      Ok ([("mascotas", [[("id", VInt 1); ("edad", VInt 35)]; [("id", VInt 2); ("edad", VInt 3)]]);
           ("adopciones", [[("id", VInt 1); ("mascota_id", VInt 1)];
                           [("id", VInt 2); ("mascota_id", VInt 99)]])], reporte) ∧
    filter (λ p, tipo p = "relacion_invalida") (problemas reporte) =
      [ {| tipo := "relacion_invalida"; tabla := "adopciones"; id := VInt 2;
           valor_actual := None; mensaje := "Mascota 99 no existe" |} ].
Proof.
  destruct (regla_de_relaciones "2024-05-01T10:00:00"
      [("mascotas", [[("id", VInt 1); ("edad", VInt 35)]; [("id", VInt 2); ("edad", VInt 3)]]);
       ("adopciones", [[("id", VInt 1); ("mascota_id", VInt 1)];
                       [("id", VInt 2); ("mascota_id", VInt 99)]])]
      [[("id", VInt 1); ("edad", VInt 35)]; [("id", VInt 2); ("edad", VInt 3)]]
      [[("id", VInt 1); ("mascota_id", VInt 1)]; [("id", VInt 2); ("mascota_id", VInt 99)]])
    as (reporte & aportes & Hok & Hf & Hap).
  - reflexivity.
  - reflexivity.
  - repeat constructor; by eexists.
  - exists reporte. split; [done|]. rewrite Hf.
    apply Forall2_cons_inv_l in Hap as (ap1 & resto1 & [Hsi _] & Hap & ->).
    apply Forall2_cons_inv_l in Hap as (ap2 & resto2 & [_ Hno] & Hap & ->).
    apply Forall2_nil_inv_l in Hap as ->.
    rewrite Hsi, Hno; [done| |].
    + intros Hco%pertenece_coincide. discriminate Hco.
    + apply pertenece_coincide. reflexivity.
Defined.

(** C4. Con las dos tablas presentes y edades numéricas, las estadísticas
    del reporte cumplen: [total_mascotas] es la longitud de la lista de
    mascotas, [total_adopciones] la de adopciones, [mascotas_adoptadas] el
    número de mascotas cuyo ["adoptado"] es verdadero, y
    [mascotas_adoptadas ≤ total_mascotas]. *)
Theorem estadisticas_del_reporte (ahora : string) (datos : datos_t)
    (mascotas adopciones : list registro) :
  buscar "mascotas" datos = Some mascotas →
  buscar "adopciones" datos = Some adopciones →
  edades_comparables mascotas →
  ∃ reporte : reporte_t,
    transformar_datos ahora datos = Ok (datos, reporte) ∧
    total_mascotas (estadisticas reporte) = length mascotas ∧
    total_adopciones (estadisticas reporte) = length adopciones ∧
    mascotas_adoptadas (estadisticas reporte) =
      length (filter (λ m, Py.verdad (get m "adoptado" (VBool false)) = true) mascotas) ∧
    (mascotas_adoptadas (estadisticas reporte) ≤ total_mascotas (estadisticas reporte))%nat.
Proof.
  intros Hm Ha Hc. eexists. split; [by apply transformar_datos_ok|]. simpl.
  split_and!; [done|done|apply contar_adoptadas_filter|].
  rewrite contar_adoptadas_filter. apply length_filter.
Qed.

Lemma estadisticas_del_reporte_testigo :
  ∃ reporte : reporte_t,
    transformar_datos "2024-05-01T10:00:00"
      [("mascotas", [[("id", VInt 1); ("adoptado", VBool true)];
                     [("id", VInt 2); ("adoptado", VBool false)]; [("id", VInt 3)]]);
       ("adopciones", [[("id", VInt 1); ("mascota_id", VInt 1)]])] =
      Ok ([("mascotas", [[("id", VInt 1); ("adoptado", VBool true)];
                         [("id", VInt 2); ("adoptado", VBool false)]; [("id", VInt 3)]]);
           ("adopciones", [[("id", VInt 1); ("mascota_id", VInt 1)]])], reporte) ∧
    total_mascotas (estadisticas reporte) = 3%nat ∧
    total_adopciones (estadisticas reporte) = 1%nat ∧
    mascotas_adoptadas (estadisticas reporte) = 1%nat.
Proof.
  destruct (estadisticas_del_reporte "2024-05-01T10:00:00"
      [("mascotas", [[("id", VInt 1); ("adoptado", VBool true)];
                     [("id", VInt 2); ("adoptado", VBool false)]; [("id", VInt 3)]]);
       ("adopciones", [[("id", VInt 1); ("mascota_id", VInt 1)]])]
      [[("id", VInt 1); ("adoptado", VBool true)];
       [("id", VInt 2); ("adoptado", VBool false)]; [("id", VInt 3)]]
      [[("id", VInt 1); ("mascota_id", VInt 1)]])
    as (reporte & Hok & Ht & Hta & Had & _).
  - reflexivity.
  - reflexivity.
  - repeat constructor; by eexists.
  - exists reporte. split_and!; [done|done|done|]. rewrite Had. reflexivity.
Defined.

(** C8. Dos transformaciones del mismo resultado de extracción, con relojes
    cualesquiera, terminan igual: o ambas devuelven los mismos datos y
    reportes con las mismas estadísticas y la misma lista de problemas (sólo
    cambia el [timestamp]), o ambas levantan la misma excepción. *)
Theorem transformacion_repetible (ahora1 ahora2 : string) (datos : datos_t) :
  match transformar_datos ahora1 datos, transformar_datos ahora2 datos with
  | Ok (d1, r1), Ok (d2, r2) =>
      d1 = d2 ∧
      estadisticas r1 = estadisticas r2 ∧
      problemas r1 = problemas r2 ∧
      timestamp r1 = ahora1 ∧ timestamp r2 = ahora2
  | Error e1, Error e2 => e1 = e2
  | _, _ => False
  end.
Proof.
  unfold transformar_datos.
  destruct (subindice datos "mascotas") as [mascotas|]; simpl; [|done].
  destruct (subindice datos "adopciones") as [adopciones|]; simpl; [|done].
  by destruct (validar_edades 0 mascotas []).
Qed.

(** C9. La lista de problemas del reporte es [pe ++ pr]: [pe] son problemas
    ["edad_invalida"] y [pr] son ["relacion_invalida"]; el k-ésimo de [pe] es
    el que se construye para la mascota de índice [i_k], con
    [i_1 < i_2 < ...], y el k-ésimo de [pr] el de la adopción de índice
    [j_k], con [j_1 < j_2 < ...]. *)
Theorem orden_de_problemas (ahora : string) (datos : datos_t)
    (mascotas adopciones : list registro) :
  buscar "mascotas" datos = Some mascotas →
  buscar "adopciones" datos = Some adopciones →
  edades_comparables mascotas →
  ∃ (reporte : reporte_t) (pe pr : list problema) (indices_m indices_a : list nat),
    transformar_datos ahora datos = Ok (datos, reporte) ∧
    problemas reporte = pe ++ pr ∧
    Forall (λ p, tipo p = "edad_invalida") pe ∧
    Forall (λ p, tipo p = "relacion_invalida") pr ∧
    StronglySorted lt indices_m ∧
    Forall2 (λ i p, ∃ m, mascotas !! i = Some m ∧
                         p = problema_edad i m (get m "edad" (VInt 0)))
            indices_m pe ∧
    StronglySorted lt indices_a ∧
    Forall2 (λ j p, ∃ a, adopciones !! j = Some a ∧
                         p = problema_relacion a (get a "mascota_id" VNone))
            indices_a pr.
Proof.
  intros Hm Ha Hc.
  destruct (aportes_edad_procedencia mascotas 0) as (im & Hsm & _ & Hpm).
  destruct (aportes_relacion_procedencia (ids_mascotas mascotas) adopciones 0)
    as (ia & Hsa & _ & Hpa).
  eexists _, _, _, im, ia.
  split; [by apply transformar_datos_ok|]. simpl.
  split_and!; [done|apply aportes_edad_tipo|apply aportes_relacion_tipo|done| |done|].
  - eapply Forall2_impl; [exact Hpm|]. intros i p (m & Hi & ->).
    rewrite Nat.sub_0_r in Hi. by exists m.
  - eapply Forall2_impl; [exact Hpa|]. intros j p (a & Hj & ->).
    rewrite Nat.sub_0_r in Hj. by exists a.
Qed.

Lemma orden_de_problemas_testigo :
  ∃ (reporte : reporte_t) (pe pr : list problema),
    transformar_datos "2024-05-01T10:00:00"
      [("adopciones", [[("id", VInt 7); ("mascota_id", VInt 5)];
                       [("id", VInt 8); ("mascota_id", VInt 2)]]);
       ("mascotas", [[("id", VInt 1); ("edad", VInt 40)]; [("id", VInt 2); ("edad", VInt 4)];
                     [("id", VInt 3); ("edad", VInt (-1))]])] =
      Ok ([("adopciones", [[("id", VInt 7); ("mascota_id", VInt 5)];
                           [("id", VInt 8); ("mascota_id", VInt 2)]]);
           ("mascotas", [[("id", VInt 1); ("edad", VInt 40)]; [("id", VInt 2); ("edad", VInt 4)];
                         [("id", VInt 3); ("edad", VInt (-1))]])], reporte) ∧
    problemas reporte = pe ++ pr ∧
    Forall (λ p, tipo p = "edad_invalida") pe ∧
    Forall (λ p, tipo p = "relacion_invalida") pr.
Proof.
  destruct (orden_de_problemas "2024-05-01T10:00:00"
      [("adopciones", [[("id", VInt 7); ("mascota_id", VInt 5)];
                       [("id", VInt 8); ("mascota_id", VInt 2)]]);
       ("mascotas", [[("id", VInt 1); ("edad", VInt 40)]; [("id", VInt 2); ("edad", VInt 4)];
                     [("id", VInt 3); ("edad", VInt (-1))]])]
      [[("id", VInt 1); ("edad", VInt 40)]; [("id", VInt 2); ("edad", VInt 4)];
       [("id", VInt 3); ("edad", VInt (-1))]]
      [[("id", VInt 7); ("mascota_id", VInt 5)]; [("id", VInt 8); ("mascota_id", VInt 2)]])
    as (reporte & pe & pr & im & ia & Hok & Hp & He & Hr & _).
  - reflexivity.
  - reflexivity.
  - repeat constructor; by eexists.
  - by exists reporte, pe, pr.
Defined.

(** C10. Un [None] nunca pertenece al conjunto de ids de mascotas, y toda
    adopción cuya ["mascota_id"] falta o es [None] aporta, en su posición,
    exactamente un problema ["relacion_invalida"] cuyo ["id"] es el de la
    adopción, o [None] si no lo tiene. *)
Theorem referencia_nula_marcada (ahora : string) (datos : datos_t)
    (mascotas adopciones : list registro) :
  buscar "mascotas" datos = Some mascotas →
  buscar "adopciones" datos = Some adopciones →
  edades_comparables mascotas →
  Py.pertenece VNone (ids_mascotas mascotas) = false ∧
  ∃ (reporte : reporte_t) (aportes : list (list problema)),
    transformar_datos ahora datos = Ok (datos, reporte) ∧
    filter (λ p, tipo p = "relacion_invalida") (problemas reporte) = mjoin aportes ∧
    length aportes = length adopciones ∧
    ∀ (j : nat) (a : registro),
      adopciones !! j = Some a →
      (buscar "mascota_id" a = None ∨ buscar "mascota_id" a = Some VNone) →
      aportes !! j =
        Some [ {| tipo := "relacion_invalida";
                  tabla := "adopciones";
                  id := default VNone (buscar "id" a);
                  valor_actual := None;
                  mensaje := "Mascota None no existe" |} ] ∧
      {| tipo := "relacion_invalida";
         tabla := "adopciones";
         id := default VNone (buscar "id" a);
         valor_actual := None;
         mensaje := "Mascota None no existe" |} ∈ problemas reporte.
Proof.
  intros Hm Ha Hc. split; [apply none_no_pertenece|].
  eexists _, (aporte_relacion (ids_mascotas mascotas) <$> adopciones).
  split; [by apply transformar_datos_ok|]. simpl. split_and!.
  - apply filtro_relacion; [apply aportes_edad_tipo|apply aportes_relacion_tipo].
  - by rewrite length_fmap.
  - intros j a Hj Hnula.
    assert (get a "mascota_id" VNone = VNone) as Hget.
    { destruct Hnula as [H|H]; unfold get; by rewrite H. }
    assert (aporte_relacion (ids_mascotas mascotas) a =
              [ {| tipo := "relacion_invalida"; tabla := "adopciones";
                   id := default VNone (buscar "id" a); valor_actual := None;
                   mensaje := "Mascota None no existe" |} ]) as Hap.
    { unfold aporte_relacion. by rewrite Hget, none_no_pertenece. }
    split.
    + by rewrite list_lookup_fmap, Hj, <-Hap.
    + apply elem_of_app. right. apply list_elem_of_join.
      exists (aporte_relacion (ids_mascotas mascotas) a). split.
      * rewrite Hap. by left.
      * apply list_elem_of_fmap. exists a. split; [done|].
        by eapply list_elem_of_lookup_2.
Qed.

Lemma referencia_nula_marcada_testigo :
  ∃ reporte : reporte_t,
    transformar_datos "2024-05-01T10:00:00"
      [("mascotas", [[("id", VNone); ("edad", VInt 2)]; [("edad", VInt 5)]]);
       ("adopciones", [[("id", VInt 4); ("mascota_id", VNone)]; [("adoptante_nombre", VStr "Ana")]])] =
      Ok ([("mascotas", [[("id", VNone); ("edad", VInt 2)]; [("edad", VInt 5)]]);
           ("adopciones", [[("id", VInt 4); ("mascota_id", VNone)];
                           [("adoptante_nombre", VStr "Ana")]])], reporte) ∧
    {| tipo := "relacion_invalida"; tabla := "adopciones"; id := VInt 4;
       valor_actual := None; mensaje := "Mascota None no existe" |} ∈ problemas reporte ∧
    {| tipo := "relacion_invalida"; tabla := "adopciones"; id := VNone;
       valor_actual := None; mensaje := "Mascota None no existe" |} ∈ problemas reporte.
Proof.
  destruct (referencia_nula_marcada "2024-05-01T10:00:00"
      [("mascotas", [[("id", VNone); ("edad", VInt 2)]; [("edad", VInt 5)]]);
       ("adopciones", [[("id", VInt 4); ("mascota_id", VNone)]; [("adoptante_nombre", VStr "Ana")]])]
      [[("id", VNone); ("edad", VInt 2)]; [("edad", VInt 5)]]
      [[("id", VInt 4); ("mascota_id", VNone)]; [("adoptante_nombre", VStr "Ana")]])
    as (_ & reporte & aportes & Hok & _ & _ & Hap).
  - reflexivity.
  - reflexivity.
  - repeat constructor; by eexists.
  - exists reporte. split_and!; [done| |].
    + apply (Hap 0%nat [("id", VInt 4); ("mascota_id", VNone)]); [done|by right].
    + apply (Hap 1%nat [("adoptante_nombre", VStr "Ana")]); [done|by left].
Defined.

(** ** Edad ausente y edad nula *)

(** Si el registro no tiene la clave ["edad"], la edad vale 0 y no aporta
    ningún problema. *)
Lemma edad_ausente_es_cero (m : registro) :
  buscar "edad" m = None →
  get m "edad" (VInt 0) = VInt 0 ∧ en_rango (get m "edad" (VInt 0)) = Ok true ∧
  fuera_de_rango m = false.
Proof.
  intros Hm. unfold fuera_de_rango. by rewrite (get_ausente _ _ _ Hm).
Qed.

(** Si la clave ["edad"] está con valor [None] (columna [edad] nula), la
    comparación [0 <= None] levanta [TypeError] y la transformación aborta. *)
Lemma edad_nula_TypeError (ahora : string) (datos : datos_t)
    (mascotas adopciones : list registro) (m : registro) :
  buscar "mascotas" datos = Some mascotas →
  buscar "adopciones" datos = Some adopciones →
  m ∈ mascotas →
  buscar "edad" m = Some VNone →
  transformar_datos ahora datos = Error TypeError.
Proof.
  intros Hm Ha Hin Hedad. eapply transformar_datos_TypeError; [done..|].
  intros Hc. unfold edades_comparables in Hc. rewrite Forall_forall in Hc.
  specialize (Hc m Hin). rewrite (get_presente _ _ _ _ Hedad) in Hc.
  by destruct Hc.
Qed.

(** ** Extracción y verificación del esquema *)

Lemma elem_of_tablas_requeridas (t : string) :
  t ∈ tablas_requeridas ↔ t = "mascotas" ∨ t = "adopciones".
Proof. unfold tablas_requeridas. set_solver. Qed.

Lemma elem_of_faltantes (e : entorno) (t : string) :
  t ∈ tablas_requeridas ∖ dom (almacen e) ↔
  (t = "mascotas" ∨ t = "adopciones") ∧ almacen e !! t = None.
Proof.
  rewrite elem_of_difference, elem_of_tablas_requeridas, not_elem_of_dom. done.
Qed.

Lemma extraer_datos_faltantes (e : entorno) (w : mundo) :
  tablas_requeridas ∖ dom (almacen e) ≠ ∅ →
  extraer_datos e w =
    (Error (ValueErrorTablas (tablas_requeridas ∖ dom (almacen e))), w).
Proof. intros Hf. unfold extraer_datos. by rewrite bool_decide_eq_false_2. Qed.

Lemma extraer_datos_ok (e : entorno) (w : mundo) (mascotas adopciones : list registro) :
  almacen e !! "mascotas" = Some mascotas →
  almacen e !! "adopciones" = Some adopciones →
  extraer_datos e w =
    (Ok (datos_extraidos e mascotas adopciones),
     anotar_lecturas (recorrido_requeridas e) w).
Proof.
  intros Hm Ha. unfold extraer_datos.
  rewrite bool_decide_eq_true_2.
  - unfold recorrido_requeridas, datos_extraidos, anotar_lecturas.
    destruct (orden_invertido e); simpl;
      unfold bind, leer_tabla; rewrite ?Ha, ?Hm; simpl;
      unfold bind, leer_tabla; rewrite ?Ha, ?Hm; simpl;
      by rewrite <-app_assoc.
  - apply set_eq. intros t. rewrite elem_of_faltantes.
    split; [|by intros ?%elem_of_empty]. intros [[->| ->] ?]; congruence.
Qed.

Lemma buscar_datos_extraidos (e : entorno) (mascotas adopciones : list registro) :
  buscar "mascotas" (datos_extraidos e mascotas adopciones) = Some mascotas ∧
  buscar "adopciones" (datos_extraidos e mascotas adopciones) = Some adopciones.
Proof. unfold datos_extraidos. by destruct (orden_invertido e). Qed.

(** Dos corridas sobre el mismo almacén, con relojes, disco y orden de
    recorrido cualesquiera: extracción y transformación dan las mismas
    estadísticas y la misma lista de problemas. *)
Lemma dos_corridas_mismo_almacen (e1 e2 : entorno) (w1 w2 : mundo)
    (mascotas adopciones : list registro) :
  almacen e1 = almacen e2 →
  almacen e1 !! "mascotas" = Some mascotas →
  almacen e1 !! "adopciones" = Some adopciones →
  edades_comparables mascotas →
  ∃ d1 d2 r1 r2,
    (extraer_datos e1 w1).1 = Ok d1 ∧ (extraer_datos e2 w2).1 = Ok d2 ∧
    transformar_datos (ahora_iso e1) d1 = Ok (d1, r1) ∧
    transformar_datos (ahora_iso e2) d2 = Ok (d2, r2) ∧
    estadisticas r1 = estadisticas r2 ∧ problemas r1 = problemas r2.
Proof.
  intros Heq Hm Ha Hc.
  rewrite (extraer_datos_ok e1 w1 _ _ Hm Ha).
  rewrite Heq in Hm, Ha. rewrite (extraer_datos_ok e2 w2 _ _ Hm Ha). simpl.
  destruct (buscar_datos_extraidos e1 mascotas adopciones) as [Hm1 Ha1].
  destruct (buscar_datos_extraidos e2 mascotas adopciones) as [Hm2 Ha2].
  exists (datos_extraidos e1 mascotas adopciones), (datos_extraidos e2 mascotas adopciones).
  rewrite (transformar_datos_ok (ahora_iso e1) _ _ _ Hm1 Ha1 Hc).
  rewrite (transformar_datos_ok (ahora_iso e2) _ _ _ Hm2 Ha2 Hc).
  by eexists _, _.
Qed.

Lemma ejecutar_pipeline_sin_bd (e : entorno) (w : mundo) :
  existe_bd e = false →
  ∃ ruta, ejecutar_pipeline e w =
            (Ok false, con_error_de_pipeline (FileNotFoundError ruta) [] w).
Proof.
  intros Hbd. eexists. unfold ejecutar_pipeline, try_except, bind, configurar_rutas.
  rewrite Hbd. simpl. unfold con_error_de_pipeline. by rewrite app_nil_r.
Qed.

Lemma ejecutar_pipeline_faltantes (e : entorno) (w : mundo) :
  existe_bd e = true →
  tablas_requeridas ∖ dom (almacen e) ≠ ∅ →
  ejecutar_pipeline e w =
    (Ok false,
     con_error_de_pipeline
       (ValueErrorTablas (tablas_requeridas ∖ dom (almacen e)))
       [unir e (unir e proyecto_path "pipeline") "backups"] w).
Proof.
  intros Hbd Hf. unfold ejecutar_pipeline, try_except, bind at 1, configurar_rutas.
  rewrite Hbd. simpl. unfold bind at 1. simpl.
  by rewrite (extraer_datos_faltantes _ _ Hf).
Qed.



(** ** Rutas de los archivos de respaldo *)

Lemma lista_de_append (s t : string) :
  String.list_ascii_of_string (s +:+ t) =
    String.list_ascii_of_string s ++ String.list_ascii_of_string t.
Proof. induction s as [|c s IH]; simpl; [done|by rewrite IH]. Qed.

Lemma lista_inyectiva (s t : string) :
  String.list_ascii_of_string s = String.list_ascii_of_string t → s = t.
Proof.
  intros H. rewrite <-(String.string_of_list_ascii_of_string s),
    <-(String.string_of_list_ascii_of_string t). by rewrite H.
Qed.

Lemma append_cancela_sufijo (s s' t : string) : s +:+ t = s' +:+ t → s = s'.
Proof.
  intros H. apply lista_inyectiva.
  apply (f_equal String.list_ascii_of_string) in H. rewrite !lista_de_append in H.
  by apply app_inv_tail in H.
Qed.

Lemma ultimo_de_append (s t : string) (c : Ascii.ascii) :
  ultimo t = Some c → ultimo (s +:+ t) = Some c.
Proof.
  unfold ultimo. intros H. rewrite lista_de_append. by apply last_app_Some; left.
Qed.

Lemma ruta_csv_inyectiva (e : entorno) (dir timestamp t t' : string) :
  ruta_csv e dir timestamp t = ruta_csv e dir timestamp t' → t = t'.
Proof.
  unfold ruta_csv, unir, nombre_csv. intros H.
  do 2 apply String.app_inj in H. by apply append_cancela_sufijo in H.
Qed.

Lemma ruta_csv_no_json (e : entorno) (dir timestamp t : string) :
  ruta_csv e dir timestamp t ≠ ruta_json e dir timestamp.
Proof.
  unfold ruta_csv, ruta_json, unir, nombre_csv, nombre_json. intros H.
  apply (f_equal ultimo) in H.
  rewrite (ultimo_de_append dir _ (Ascii.ascii_of_nat 118)) in H
    by (do 4 apply ultimo_de_append; reflexivity).
  rewrite (ultimo_de_append dir _ (Ascii.ascii_of_nat 110)) in H
    by (do 3 apply ultimo_de_append; reflexivity).
  discriminate.
Qed.

(** ** Resultado de cada escritura *)

Lemma efecto_nada (w : mundo) : efecto (disco w) [] w = w.
Proof. destruct w. unfold efecto. simpl. by rewrite app_nil_r. Qed.

Lemma efecto_efecto (d1 d2 : gmap string contenido) (evs1 evs2 : list evento) (w : mundo) :
  efecto d2 evs2 (efecto d1 evs1 w) = efecto d2 (evs1 ++ evs2) w.
Proof. unfold efecto. simpl. by rewrite app_assoc. Qed.

Lemma consola_efecto (d : gmap string contenido) (evs : list evento) (w : mundo) :
  consola (efecto d evs w) = consola w ++ evs.
Proof. done. Qed.

Lemma disco_efecto (d : gmap string contenido) (evs : list evento) (w : mundo) :
  disco (efecto d evs w) = d.
Proof. done. Qed.

Lemma escribir_filas_spec (ruta : string) (fieldnames : list string)
    (registros : list registro) :
  ∀ (w : mundo) (previas : list (list valor)),
    disco w !! ruta = Some (CSV fieldnames previas) →
    escribir_filas ruta fieldnames registros w =
      (de_error (error_filas fieldnames registros),
       efecto (<[ruta := CSV fieldnames (previas ++ filas_escritas fieldnames registros)]>
                 (disco w)) [] w).
Proof.
  induction registros as [|r resto IH]; intros w previas Hw; simpl.
  - by rewrite app_nil_r, insert_id, efecto_nada.
  - unfold bind at 1, lift. destruct (fila_csv fieldnames r) as [fila|ex].
    + unfold bind, agregar_fila, poner_archivo. rewrite Hw. simpl.
      erewrite IH; [|simpl; apply lookup_insert_eq]. simpl.
      unfold efecto. simpl. by rewrite insert_insert_eq, <-app_assoc.
    + by rewrite app_nil_r, insert_id, efecto_nada.
Qed.

Lemma escribir_csv_spec (e : entorno) (ruta : string) (fieldnames : list string)
    (registros : list registro) (w : mundo) :
  escribir_csv e ruta fieldnames registros w =
    (de_error (error_csv e ruta fieldnames registros),
     if abre e ruta
     then efecto (<[ruta := CSV fieldnames (filas_escritas fieldnames registros)]> (disco w)) [] w
     else w).
Proof.
  unfold escribir_csv, error_csv. destruct (abre e ruta); [|done].
  unfold bind, poner_archivo.
  erewrite escribir_filas_spec; [|simpl; apply lookup_insert_eq]. simpl.
  unfold efecto. simpl. by rewrite insert_insert_eq.
Qed.

Lemma escribir_json_spec (e : entorno) (ruta : string) (r : reporte_t) (w : mundo) :
  escribir_json e ruta r w =
    (de_error (error_json e ruta r),
     if abre e ruta
     then efecto (<[ruta := if reporte_serializable r then JSON r else Truncado]> (disco w)) [] w
     else w).
Proof.
  unfold escribir_json, error_json, efecto. destruct (abre e ruta); [|done].
  destruct (reporte_serializable r); unfold bind, poner_archivo; simpl;
    by rewrite app_nil_r.
Qed.

(** ** Lo que hace [guardar_backups] con cada tabla y con el reporte *)

Lemma guardar_tablas_spec (e : entorno) (dir timestamp : string) (items : datos_t) :
  ∀ (archivos : list string) (w : mundo),
    guardar_tablas e dir timestamp items archivos w =
      (Ok (archivos ++ omap (archivo_de_tabla e dir timestamp) items),
       efecto (foldl (disco_tras_tabla e dir timestamp) (disco w) items)
              (evento_de_tabla e dir timestamp <$> items) w).
Proof.
  induction items as [|[tabla registros] resto IH]; intros archivos w; simpl.
  - by rewrite app_nil_r, efecto_nada.
  - destruct registros as [|primero otros].
    + unfold bind at 1, print. rewrite IH. simpl.
      unfold archivo_de_tabla, evento_de_tabla, disco_tras_tabla, efecto. simpl.
      by rewrite <-app_assoc.
    + unfold bind at 1, try_except, bind at 1.
      fold (ruta_csv e dir timestamp tabla).
      rewrite escribir_csv_spec.
      unfold archivo_de_tabla, evento_de_tabla, disco_tras_tabla, fallo_tabla. simpl.
      destruct (error_csv e _ _ _) as [ex|] eqn:Herr; simpl.
      * unfold bind, print. rewrite IH. simpl.
        destruct (abre e _); unfold efecto; simpl;
          by rewrite ?app_nil_r, <-?app_assoc.
      * unfold bind, print. simpl. rewrite IH. simpl.
        destruct (abre e _); unfold efecto; simpl;
          by rewrite ?app_nil_r, <-?app_assoc.
Qed.

Lemma guardar_reporte_spec (e : entorno) (dir timestamp : string) (r : reporte_t)
    (archivos : list string) (w : mundo) :
  guardar_reporte e dir timestamp r archivos w =
    (Ok (archivos ++ archivo_de_reporte e dir timestamp r),
     efecto (disco_tras_reporte e dir timestamp r (disco w))
            [evento_de_reporte e dir timestamp r] w).
Proof.
  unfold guardar_reporte, try_except, bind at 1.
  fold (ruta_json e dir timestamp). rewrite escribir_json_spec.
  unfold archivo_de_reporte, evento_de_reporte, disco_tras_reporte.
  destruct (error_json e _ r) as [ex|]; simpl; unfold bind, print; simpl;
    destruct (abre e _); unfold efecto; simpl; by rewrite ?app_nil_r.
Qed.

Lemma guardar_backups_spec (e : entorno) (datos : datos_t) (r : reporte_t)
    (dir : string) (w : mundo) :
  guardar_backups e datos r dir w =
    (Ok (omap (archivo_de_tabla e dir (ahora_archivo e)) datos ++
         archivo_de_reporte e dir (ahora_archivo e) r),
     efecto (disco_tras_reporte e dir (ahora_archivo e) r
               (foldl (disco_tras_tabla e dir (ahora_archivo e)) (disco w) datos))
            ((evento_de_tabla e dir (ahora_archivo e) <$> datos) ++
             [evento_de_reporte e dir (ahora_archivo e) r]) w).
Proof.
  unfold guardar_backups, bind. rewrite guardar_tablas_spec, guardar_reporte_spec.
  simpl. by rewrite efecto_efecto.
Qed.

(** ** El disco tras el bucle de tablas *)

Lemma disco_tras_tabla_otro (e : entorno) (dir timestamp : string)
    (d : gmap string contenido) (item : string * list registro) (ruta : string) :
  ruta ≠ ruta_csv e dir timestamp item.1 →
  disco_tras_tabla e dir timestamp d item !! ruta = d !! ruta.
Proof.
  intros Hne. unfold disco_tras_tabla.
  destruct item.2; [done|]. destruct (abre e _); [|done].
  by rewrite lookup_insert_ne.
Qed.

Lemma disco_tras_tabla_congr (e : entorno) (dir timestamp : string)
    (d1 d2 : gmap string contenido) (item : string * list registro) (ruta : string) :
  d1 !! ruta = d2 !! ruta →
  disco_tras_tabla e dir timestamp d1 item !! ruta =
  disco_tras_tabla e dir timestamp d2 item !! ruta.
Proof.
  intros Heq. unfold disco_tras_tabla.
  destruct item.2; [done|]. destruct (abre e _); [|done].
  destruct (decide (ruta_csv e dir timestamp item.1 = ruta)) as [->|Hne].
  - by rewrite !lookup_insert_eq.
  - by rewrite !lookup_insert_ne.
Qed.

Lemma foldl_disco_congr (e : entorno) (dir timestamp : string) (items : datos_t) :
  ∀ (d1 d2 : gmap string contenido) (ruta : string),
    d1 !! ruta = d2 !! ruta →
    foldl (disco_tras_tabla e dir timestamp) d1 items !! ruta =
    foldl (disco_tras_tabla e dir timestamp) d2 items !! ruta.
Proof.
  induction items as [|item resto IH]; intros d1 d2 ruta Heq; simpl; [done|].
  by apply IH, disco_tras_tabla_congr.
Qed.

Lemma foldl_disco_ajeno (e : entorno) (dir timestamp : string) (items : datos_t) :
  ∀ (d : gmap string contenido) (ruta : string),
    (∀ item, item ∈ items → item.2 ≠ [] → ruta ≠ ruta_csv e dir timestamp item.1) →
    foldl (disco_tras_tabla e dir timestamp) d items !! ruta = d !! ruta.
Proof.
  induction items as [|item resto IH]; intros d ruta Hajeno; simpl; [done|].
  rewrite IH by (intros it Hit; apply Hajeno; by right).
  unfold disco_tras_tabla. destruct (item.2) eqn:Hregs; [done|].
  destruct (abre e _); [|done].
  rewrite lookup_insert_ne; [done|].
  intros Heq. eapply Hajeno; [by left|by rewrite Hregs|done].
Qed.

Lemma foldl_disco_tabla (e : entorno) (dir timestamp : string) (items : datos_t) :
  ∀ (d : gmap string contenido) (tabla : string) (primero : registro)
    (otros : list registro),
    NoDup (keys items) →
    (tabla, primero :: otros) ∈ items →
    abre e (ruta_csv e dir timestamp tabla) = true →
    foldl (disco_tras_tabla e dir timestamp) d items !! ruta_csv e dir timestamp tabla =
      Some (CSV (keys primero) (filas_escritas (keys primero) (primero :: otros))).
Proof.
  induction items as [|item resto IH]; intros d tabla primero otros Hnd Hin Habre.
  - by apply elem_of_nil in Hin.
  - unfold keys in Hnd. rewrite fmap_cons in Hnd. apply NoDup_cons in Hnd as [Hfresh Hnd].
    apply elem_of_cons in Hin as [<-|Hin]; simpl.
    + rewrite foldl_disco_ajeno.
      * unfold disco_tras_tabla. simpl. rewrite Habre. by rewrite lookup_insert_eq.
      * intros it Hit _ Heq%ruta_csv_inyectiva. apply Hfresh. simpl. rewrite Heq.
        by apply list_elem_of_fmap_2.
    + by apply IH.
Qed.

(** ** Tablas de filas uniformes *)

Lemma fila_csv_ok (fieldnames : list string) (r : registro) :
  keys r ⊆ fieldnames → fila_csv fieldnames r = Ok (fila_completa fieldnames r).
Proof.
  intros Hsub. unfold fila_csv. rewrite filter_ninguno; [done|].
  apply Forall_forall. intros k Hk Hno. by apply Hno, Hsub.
Qed.

Lemma escritura_uniforme (fieldnames : list string) (registros : list registro) :
  Forall (λ r, keys r ⊆ fieldnames) registros →
  error_filas fieldnames registros = None ∧
  filas_escritas fieldnames registros = fila_completa fieldnames <$> registros.
Proof.
  induction 1 as [|r resto Hr Hresto [IH1 IH2]]; simpl; [done|].
  rewrite (fila_csv_ok _ _ Hr). by rewrite IH1, IH2.
Qed.

Lemma fallo_tabla_None (e : entorno) (dir timestamp : string)
    (item : string * list registro) :
  (∀ ruta, abre e ruta = true) → filas_uniformes item.2 →
  fallo_tabla e dir timestamp item = None.
Proof.
  intros Habre Hu. unfold fallo_tabla, error_csv.
  destruct (item.2) as [|primero otros] eqn:Hregs; [done|].
  rewrite Habre. by apply escritura_uniforme, Hu.
Qed.

Lemma omap_cons_eq {A B} (f : A → option B) (x : A) (l : list A) :
  omap f (x :: l) = match f x with Some y => y :: omap f l | None => omap f l end.
Proof. done. Qed.

Lemma archivos_sin_fallos (e : entorno) (dir timestamp : string) (datos : datos_t) :
  (∀ ruta, abre e ruta = true) →
  Forall (λ item, filas_uniformes item.2) datos →
  omap (archivo_de_tabla e dir timestamp) datos =
    ruta_csv e dir timestamp <$> keys (filter (λ item, item.2 ≠ []) datos).
Proof.
  intros Habre. induction 1 as [|item resto Hu Hresto IH]; [done|].
  pose proof (fallo_tabla_None e dir timestamp item Habre Hu) as Hok.
  rewrite omap_cons_eq. unfold archivo_de_tabla at 1. rewrite Hok.
  destruct (item.2) as [|primero otros] eqn:Hregs.
  - by rewrite filter_cons_False by (rewrite Hregs; by intros []).
  - rewrite filter_cons_True by (by rewrite Hregs).
    unfold keys in *. by rewrite !fmap_cons, IH.
Qed.

Lemma de_error_Error (o : option excepcion) (ex : excepcion) :
  de_error o = Error ex → o = Some ex.
Proof. destruct o; simpl; congruence. Qed.

Lemma de_error_Ok (o : option excepcion) : de_error o = Ok tt → o = None.
Proof. by destruct o. Qed.

Lemma disco_tras_reporte_congr (e : entorno) (dir timestamp : string) (r : reporte_t)
    (d1 d2 : gmap string contenido) (ruta : string) :
  d1 !! ruta = d2 !! ruta →
  disco_tras_reporte e dir timestamp r d1 !! ruta =
  disco_tras_reporte e dir timestamp r d2 !! ruta.
Proof.
  intros Heq. unfold disco_tras_reporte. destruct (abre e _); [|done].
  destruct (decide (ruta_json e dir timestamp = ruta)) as [->|Hne].
  - by rewrite !lookup_insert_eq.
  - by rewrite !lookup_insert_ne.
Qed.

Lemma disco_tras_reporte_otro (e : entorno) (dir timestamp : string) (r : reporte_t)
    (d : gmap string contenido) (ruta : string) :
  ruta ≠ ruta_json e dir timestamp →
  disco_tras_reporte e dir timestamp r d !! ruta = d !! ruta.
Proof.
  intros Hne. unfold disco_tras_reporte. destruct (abre e _); [|done].
  by rewrite lookup_insert_ne.
Qed.

Lemma reporte_escrito (e : entorno) (dir timestamp : string) (r : reporte_t)
    (d : gmap string contenido) :
  error_json e (ruta_json e dir timestamp) r = None →
  archivo_de_reporte e dir timestamp r = [ruta_json e dir timestamp] ∧
  evento_de_reporte e dir timestamp r = EvReporteGuardado (nombre_json timestamp) ∧
  disco_tras_reporte e dir timestamp r d !! ruta_json e dir timestamp = Some (JSON r).
Proof.
  intros Hok. unfold archivo_de_reporte, evento_de_reporte, disco_tras_reporte.
  rewrite Hok. unfold error_json in Hok.
  destruct (abre e _); [|done]. destruct (reporte_serializable r); [|done].
  by rewrite lookup_insert_eq.
Qed.

(** C7. [guardar_backups] nunca levanta: devuelve la lista de los archivos
    cuya escritura tuvo éxito. Si la escritura del archivo de una tabla
    falla, el fallo queda en la consola con el nombre de la tabla, y la lista
    devuelta y el resto del disco son los mismos que si esa tabla no
    estuviera entre los datos; el reporte se escribe igual si su propia
    escritura no falla. *)
Theorem fallos_de_escritura_aislados (e : entorno) (datos : datos_t)
    (reporte : reporte_t) (dir : string) (w : mundo) :
  ∃ (archivos : list string) (w' : mundo),
    guardar_backups e datos reporte dir w = (Ok archivos, w') ∧
    archivos = omap (archivo_de_tabla e dir (ahora_archivo e)) datos ++
               archivo_de_reporte e dir (ahora_archivo e) reporte ∧
    consola w' = consola w ++ (evento_de_tabla e dir (ahora_archivo e) <$> datos) ++
                 [evento_de_reporte e dir (ahora_archivo e) reporte] ∧
    ∀ (antes despues : datos_t) (tabla : string) (primero : registro)
      (otros : list registro) (ex : excepcion) (w0 : mundo),
      datos = antes ++ (tabla, primero :: otros) :: despues →
      (escribir_csv e (ruta_csv e dir (ahora_archivo e) tabla) (keys primero)
                    (primero :: otros) w0).1 = Error ex →
      EvErrorTabla tabla ex ∈ consola w' ∧
      ∃ w'' : mundo,
        guardar_backups e (antes ++ despues) reporte dir w = (Ok archivos, w'') ∧
        (∀ ruta, ruta ≠ ruta_csv e dir (ahora_archivo e) tabla →
                 disco w' !! ruta = disco w'' !! ruta) ∧
        (∀ w1, (escribir_json e (ruta_json e dir (ahora_archivo e)) reporte w1).1 = Ok tt →
               last archivos = Some (ruta_json e dir (ahora_archivo e)) ∧
               disco w' !! ruta_json e dir (ahora_archivo e) = Some (JSON reporte)).
Proof.
  eexists _, _. split; [apply guardar_backups_spec|].
  split; [done|]. split; [done|].
  intros antes despues tabla primero otros ex w0 -> Hfalla.
  rewrite escribir_csv_spec in Hfalla. simpl in Hfalla.
  apply de_error_Error in Hfalla.
  assert (fallo_tabla e dir (ahora_archivo e) (tabla, primero :: otros) = Some ex)
    as Hfallo by done.
  split.
  - rewrite consola_efecto, fmap_app, fmap_cons.
    assert (evento_de_tabla e dir (ahora_archivo e) (tabla, primero :: otros) =
              EvErrorTabla tabla ex) as ->.
    { unfold evento_de_tabla. by rewrite Hfallo. }
    rewrite !elem_of_app, elem_of_cons. right. left. right. by left.
  - eexists. split; [|split].
    + rewrite guardar_backups_spec. f_equal. f_equal.
      rewrite !omap_app, omap_cons_eq.
      assert (archivo_de_tabla e dir (ahora_archivo e) (tabla, primero :: otros) = None)
        as ->; [|done].
      unfold archivo_de_tabla. by rewrite Hfallo.
    + intros ruta Hruta. rewrite !disco_efecto. apply disco_tras_reporte_congr.
      rewrite !foldl_app.
      change (foldl ?f ?a ((tabla, primero :: otros) :: despues))
        with (foldl f (f a (tabla, primero :: otros)) despues).
      apply foldl_disco_congr.
      by apply disco_tras_tabla_otro.
    + intros w1 Hjson. rewrite escribir_json_spec in Hjson. simpl in Hjson.
      rewrite disco_efecto.
      apply de_error_Ok in Hjson.
      destruct (reporte_escrito e dir (ahora_archivo e) reporte
                  (foldl (disco_tras_tabla e dir (ahora_archivo e)) (disco w)
                         (antes ++ (tabla, primero :: otros) :: despues)) Hjson)
        as (Harch & _ & Hdisco).
      split; [by rewrite Harch, last_snoc|exact Hdisco].
Qed.

Lemma fallos_de_escritura_aislados_testigo :
  ∃ w' : mundo,
    guardar_backups entorno_disco_parcial
      [("mascotas", [[("id", VInt 1); ("edad", VInt 3)]]);
       ("adopciones", [[("id", VInt 1); ("mascota_id", VInt 1)]])]
      reporte_vacio "backups" mundo_inicial =
      (Ok ["backups/adopciones_20240501_100000.csv";
           "backups/reporte_calidad_20240501_100000.json"], w') ∧
    EvErrorTabla "mascotas" (OSError "backups/mascotas_20240501_100000.csv") ∈ consola w' ∧
    disco w' !! "backups/reporte_calidad_20240501_100000.json" = Some (JSON reporte_vacio).
Proof.
  destruct (fallos_de_escritura_aislados entorno_disco_parcial
      [("mascotas", [[("id", VInt 1); ("edad", VInt 3)]]);
       ("adopciones", [[("id", VInt 1); ("mascota_id", VInt 1)]])]
      reporte_vacio "backups" mundo_inicial)
    as (archivos & w' & Hrun & Harch & _ & Hfallo).
  destruct (Hfallo [] [("adopciones", [[("id", VInt 1); ("mascota_id", VInt 1)]])]
              "mascotas" [("id", VInt 1); ("edad", VInt 3)] []
              (OSError "backups/mascotas_20240501_100000.csv") mundo_inicial)
    as (Hev & w'' & _ & _ & Hjson).
  - reflexivity.
  - reflexivity.
  - exists w'. split_and!.
    + rewrite Hrun, Harch. reflexivity.
    + exact Hev.
    + apply (Hjson mundo_inicial). reflexivity.
Defined.

Lemma claves_unicas {A} (d : list (string * A)) (k : string) (v1 v2 : A) :
  NoDup (keys d) → (k, v1) ∈ d → (k, v2) ∈ d → v1 = v2.
Proof.
  unfold keys. induction d as [|[k' v'] d IH]; intros Hnd H1 H2.
  - by apply elem_of_nil in H1.
  - rewrite fmap_cons in Hnd. apply NoDup_cons in Hnd as [Hfresh Hnd].
    apply elem_of_cons in H1 as [H1|H1]; apply elem_of_cons in H2 as [H2|H2].
    + congruence.
    + simplify_eq. destruct Hfresh. by apply (list_elem_of_fmap_2 fst _ (k', v2)).
    + simplify_eq. destruct Hfresh. by apply (list_elem_of_fmap_2 fst _ (k', v1)).
    + by apply IH.
Qed.

Lemma transformar_datos_Ok_comparables (ahora : string) (datos d : datos_t)
    (r : reporte_t) (mascotas adopciones : list registro) :
  buscar "mascotas" datos = Some mascotas →
  buscar "adopciones" datos = Some adopciones →
  transformar_datos ahora datos = Ok (d, r) →
  edades_comparables mascotas.
Proof.
  intros Hm Ha Hok. destruct (decide (edades_comparables mascotas)) as [|Hno]; [done|].
  rewrite (transformar_datos_TypeError _ _ _ _ Hm Ha Hno) in Hok. discriminate.
Qed.

Lemma respaldo_tabla_llena (e : entorno) (datos : datos_t) (reporte : reporte_t)
    (dir ts : string) (d : gmap string contenido)
    (tabla : string) (primero : registro) (otros : list registro) :
  NoDup (keys datos) →
  (∀ ruta, abre e ruta = true) →
  Forall (λ item, filas_uniformes item.2) datos →
  (tabla, primero :: otros) ∈ datos →
  disco_tras_reporte e dir ts reporte (foldl (disco_tras_tabla e dir ts) d datos)
    !! ruta_csv e dir ts tabla =
  Some (CSV (keys primero) (fila_completa (keys primero) <$> (primero :: otros))).
Proof.
  intros Hnd Habre Hunif Hin.
  rewrite disco_tras_reporte_otro by apply ruta_csv_no_json.
  rewrite (foldl_disco_tabla _ _ _ _ _ _ _ _ Hnd Hin (Habre _)).
  rewrite Forall_forall in Hunif. specialize (Hunif _ Hin _ eq_refl).
  simpl in Hunif. by destruct (escritura_uniforme _ _ Hunif) as [_ ->].
Qed.

Lemma respaldo_tabla_vacia (e : entorno) (datos : datos_t) (reporte : reporte_t)
    (dir ts : string) (d : gmap string contenido) (tabla : string) :
  NoDup (keys datos) →
  (tabla, []) ∈ datos →
  (ruta_csv e dir ts tabla ∉
     (ruta_csv e dir ts <$> keys (filter (λ item, item.2 ≠ []) datos))
     ++ [ruta_json e dir ts]) ∧
  disco_tras_reporte e dir ts reporte (foldl (disco_tras_tabla e dir ts) d datos)
    !! ruta_csv e dir ts tabla = d !! ruta_csv e dir ts tabla ∧
  EvTablaVacia tabla ∈ evento_de_tabla e dir ts <$> datos.
Proof.
  intros Hnd Hin. split_and!.
  - rewrite not_elem_of_app, list_elem_of_singleton. split.
    + intros (t' & Heq%ruta_csv_inyectiva & Ht')%list_elem_of_fmap. subst t'.
      apply list_elem_of_fmap in Ht' as ([t regs] & -> & [Hne Hin']%list_elem_of_filter).
      simpl in *. by rewrite (claves_unicas _ _ _ _ Hnd Hin' Hin) in Hne.
    + apply ruta_csv_no_json.
  - rewrite disco_tras_reporte_otro by apply ruta_csv_no_json.
    apply foldl_disco_ajeno. intros [t regs] Hin' Hne Heq%ruta_csv_inyectiva.
    simpl in *. subst t. by rewrite (claves_unicas _ _ _ _ Hnd Hin' Hin) in Hne.
  - by apply (list_elem_of_fmap_2 (evento_de_tabla e dir ts) _ (tabla, [])).
Qed.

(** Sin adopciones, el reporte cuenta cero y no trae problemas de relación. *)
Lemma sin_adopciones_sin_relaciones (ahora : string) (datos d : datos_t)
    (mascotas : list registro) (reporte : reporte_t) :
  buscar "mascotas" datos = Some mascotas →
  buscar "adopciones" datos = Some [] →
  transformar_datos ahora datos = Ok (d, reporte) →
  total_adopciones (estadisticas reporte) = 0%nat ∧
  filter (λ p, tipo p = "relacion_invalida") (problemas reporte) = [].
Proof.
  intros Hm Ha Htrans.
  pose proof (transformar_datos_Ok_comparables _ _ _ _ _ _ Hm Ha Htrans) as Hc.
  rewrite (transformar_datos_ok _ _ _ _ Hm Ha Hc) in Htrans.
  injection Htrans as <- <-. split; [done|].
  cbn [problemas fmap list_fmap mjoin list_join]. rewrite app_nil_r.
  apply filter_ninguno.
  eapply Forall_impl; [apply (aportes_edad_tipo mascotas 0)|].
  by intros p ->.
Qed.

(** C6. Sin fallos de escritura (el disco acepta toda ruta, las filas de
    cada tabla son uniformes y el reporte es serializable), [guardar_backups]
    devuelve las rutas CSV de las tablas no vacías, en su orden, seguidas de
    la del reporte; cada tabla no vacía queda en su archivo con encabezado y
    una fila por registro; el reporte queda en el suyo, cualquiera que sea su
    lista de problemas; una tabla vacía se anota en consola, no está en la
    lista y su ruta queda como estaba. En particular, con cero adopciones el
    reporte de la transformación tiene [total_adopciones = 0] y ningún
    problema ["relacion_invalida"], y se generan sólo el CSV de mascotas y el
    reporte. *)
Theorem respaldo_sin_fallos (e : entorno) (datos : datos_t) (reporte : reporte_t)
    (dir : string) (w : mundo) :
  NoDup (keys datos) →
  (∀ ruta, abre e ruta = true) →
  Forall (λ item, filas_uniformes item.2) datos →
  reporte_serializable reporte = true →
  ∃ (archivos : list string) (w' : mundo),
    guardar_backups e datos reporte dir w = (Ok archivos, w') ∧
    archivos =
      (ruta_csv e dir (ahora_archivo e) <$> keys (filter (λ item, item.2 ≠ []) datos))
      ++ [ruta_json e dir (ahora_archivo e)] ∧
    disco w' !! ruta_json e dir (ahora_archivo e) = Some (JSON reporte) ∧
    (∀ tabla primero otros,
       (tabla, primero :: otros) ∈ datos →
       disco w' !! ruta_csv e dir (ahora_archivo e) tabla =
         Some (CSV (keys primero)
                   (fila_completa (keys primero) <$> (primero :: otros)))) ∧
    (∀ tabla,
       (tabla, []) ∈ datos →
       (ruta_csv e dir (ahora_archivo e) tabla ∉ archivos) ∧
       disco w' !! ruta_csv e dir (ahora_archivo e) tabla =
         disco w !! ruta_csv e dir (ahora_archivo e) tabla ∧
       EvTablaVacia tabla ∈ consola w') ∧
    (∀ ahora mascotas,
       (datos = [("mascotas", mascotas); ("adopciones", [])] ∨
        datos = [("adopciones", []); ("mascotas", mascotas)]) →
       mascotas ≠ [] →
       transformar_datos ahora datos = Ok (datos, reporte) →
       total_adopciones (estadisticas reporte) = 0%nat ∧
       filter (λ p, tipo p = "relacion_invalida") (problemas reporte) = [] ∧
       archivos = [ruta_csv e dir (ahora_archivo e) "mascotas";
                   ruta_json e dir (ahora_archivo e)] ∧
       is_Some (disco w' !! ruta_csv e dir (ahora_archivo e) "mascotas") ∧
       disco w' !! ruta_csv e dir (ahora_archivo e) "adopciones" =
         disco w !! ruta_csv e dir (ahora_archivo e) "adopciones").
Proof.
  intros Hnd Habre Hunif Hser.
  set (ts := ahora_archivo e).
  assert (error_json e (ruta_json e dir ts) reporte = None) as Hjson.
  { unfold error_json. by rewrite Habre, Hser. }
  destruct (reporte_escrito e dir ts reporte
              (foldl (disco_tras_tabla e dir ts) (disco w) datos) Hjson)
    as (Harch & Hev & Hdisco).
  eexists _, _. split; [apply guardar_backups_spec|]. fold ts.
  rewrite Harch, (archivos_sin_fallos _ _ _ _ Habre Hunif), consola_efecto, disco_efecto.
  split_and!; [done|exact Hdisco| | |].
  - intros tabla primero otros Hin. by apply respaldo_tabla_llena.
  - intros tabla Hin.
    destruct (respaldo_tabla_vacia e datos reporte dir ts (disco w) tabla Hnd Hin)
      as (Hlista & Hruta & Hconsola).
    split_and!; [done|done|]. rewrite !elem_of_app. right. by left.
  - intros ahora mascotas Hdatos Hno_vacia Htrans.
    assert (buscar "mascotas" datos = Some mascotas ∧ buscar "adopciones" datos = Some [])
      as [Hm Ha] by (by destruct Hdatos as [-> | ->]).
    destruct (sin_adopciones_sin_relaciones _ _ _ _ _ Hm Ha Htrans) as [Htotal Hrel].
    destruct mascotas as [|primero otros]; [done|].
    split_and!; [done|done| | |].
    + by destruct Hdatos as [-> | ->].
    + rewrite (respaldo_tabla_llena e datos reporte dir ts (disco w)
                 "mascotas" primero otros Hnd Habre Hunif); [done|].
      destruct Hdatos as [-> | ->]; repeat constructor.
    + apply (respaldo_tabla_vacia e datos reporte dir ts (disco w) "adopciones" Hnd).
      destruct Hdatos as [-> | ->]; repeat constructor.
Qed.

Lemma respaldo_sin_fallos_testigo :
  ∃ w' : mundo,
    guardar_backups entorno_disco_sano datos_sin_adopciones reporte_sin_adopciones
                    "backups" mundo_inicial =
      (Ok ["backups/mascotas_20240501_100000.csv";
           "backups/reporte_calidad_20240501_100000.json"], w') ∧
    disco w' !! "backups/reporte_calidad_20240501_100000.json" =
      Some (JSON reporte_sin_adopciones) ∧
    disco w' !! "backups/adopciones_20240501_100000.csv" = None ∧
    EvTablaVacia "adopciones" ∈ consola w' ∧
    total_adopciones (estadisticas reporte_sin_adopciones) = 0%nat.
Proof.
  destruct (respaldo_sin_fallos entorno_disco_sano datos_sin_adopciones
              reporte_sin_adopciones "backups" mundo_inicial)
    as (archivos & w' & Hrun & Harch & Hjson & _ & Hvacia & Hcaso).
  - apply NoDup_cons. split; [|apply NoDup_singleton].
    by intros [=]%list_elem_of_singleton.
  - reflexivity.
  - apply Forall_cons. split; [|apply Forall_cons; split; [|by apply Forall_nil]].
    + intros primero [= <-]. repeat (apply Forall_cons; split; [done|]).
      by apply Forall_nil.
    + by intros primero [=].
  - reflexivity.
  - destruct (Hcaso "2024-05-01T10:00:00"
                [[("id", VInt 1); ("edad", VInt 35)]; [("id", VInt 2); ("edad", VInt 3)]])
      as (Htotal & _ & Harch' & _ & _).
    + by left.
    + done.
    + reflexivity.
    + destruct (Hvacia "adopciones") as (_ & Hdisco & Hev); [repeat constructor|].
      exists w'. split_and!; [by rewrite Hrun, Harch'|exact Hjson|exact Hdisco|exact Hev|exact Htotal].
Defined.

(** ** La corrida completa *)

Lemma ejecutar_pipeline_ok (e : entorno) (w : mundo)
    (mascotas adopciones : list registro) :
  existe_bd e = true →
  almacen e !! "mascotas" = Some mascotas →
  almacen e !! "adopciones" = Some adopciones →
  edades_comparables mascotas →
  ∃ (reporte : reporte_t) (archivos : list string) (w1 : mundo),
    transformar_datos (ahora_iso e) (datos_extraidos e mascotas adopciones) =
      Ok (datos_extraidos e mascotas adopciones, reporte) ∧
    guardar_backups e (datos_extraidos e mascotas adopciones) reporte
      (unir e (unir e proyecto_path "pipeline") "backups")
      (mundo_tras_validar e mascotas adopciones reporte w) = (Ok archivos, w1) ∧
    ejecutar_pipeline e w =
      (Ok true, efecto (disco w1) [EvCompletado archivos (estadisticas reporte)] w1).
Proof.
  intros Hbd Hm Ha Hc.
  destruct (buscar_datos_extraidos e mascotas adopciones) as [Hm' Ha'].
  pose proof (transformar_datos_ok (ahora_iso e) _ _ _ Hm' Ha' Hc) as Htrans.
  eexists _, _, _. split; [exact Htrans|]. split; [apply guardar_backups_spec|].
  unfold ejecutar_pipeline, try_except, bind at 1, configurar_rutas.
  rewrite Hbd. simpl. unfold bind at 1. simpl. unfold bind at 1.
  rewrite (extraer_datos_ok _ _ _ _ Hm Ha).
  unfold bind at 1, lift. rewrite (subindice_Ok _ _ _ Hm').
  unfold bind at 1. rewrite (subindice_Ok _ _ _ Ha').
  unfold bind at 1, print at 1. simpl.
  unfold bind at 1. rewrite Htrans.
  unfold bind at 1, print at 1. simpl.
  unfold bind at 1. rewrite guardar_backups_spec.
  unfold bind, print, ret, efecto, mundo_tras_validar, anotar_lecturas. simpl.
  by rewrite <-!app_assoc.
Qed.

(** Una fila de mascotas con la edad nula hace fallar la corrida entera: el
    resultado es [False] y el disco queda como estaba. *)
Lemma ejecutar_pipeline_edad_nula (e : entorno) (w : mundo)
    (mascotas adopciones : list registro) (m : registro) :
  existe_bd e = true →
  almacen e !! "mascotas" = Some mascotas →
  almacen e !! "adopciones" = Some adopciones →
  m ∈ mascotas →
  buscar "edad" m = Some VNone →
  ∃ w', ejecutar_pipeline e w = (Ok false, w') ∧ disco w' = disco w ∧
        last (consola w') = Some (EvErrorPipeline TypeError).
Proof.
  intros Hbd Hm Ha Hin Hnula.
  destruct (buscar_datos_extraidos e mascotas adopciones) as [Hm' Ha'].
  pose proof (edad_nula_TypeError (ahora_iso e) _ _ _ _ Hm' Ha' Hin Hnula) as Htrans.
  eexists. split.
  - unfold ejecutar_pipeline, try_except, bind at 1, configurar_rutas.
    rewrite Hbd. simpl. unfold bind at 1. simpl. unfold bind at 1.
    rewrite (extraer_datos_ok _ _ _ _ Hm Ha).
    unfold bind at 1, lift. rewrite (subindice_Ok _ _ _ Hm').
    unfold bind at 1. rewrite (subindice_Ok _ _ _ Ha').
    unfold bind at 1, print at 1. simpl.
    unfold bind at 1. rewrite Htrans.
    unfold bind, print, ret. simpl. reflexivity.
  - simpl. split; [done|]. by rewrite last_snoc.
Qed.

Lemma aportes_edad_serializables (mascotas : list registro) :
  ∀ idx,
    edades_comparables mascotas →
    Forall (λ m, serializable (get m "id" VNone) = true) mascotas →
    forallb (λ p, serializable (id p) && from_option serializable true (valor_actual p))
            (mjoin (aportes_edad idx mascotas)) = true.
Proof.
  induction mascotas as [|m resto IH]; intros idx Hc Hids; [done|].
  apply Forall_cons in Hc as [[z Hz] Hc]. apply Forall_cons in Hids as [Hid Hids].
  cbn [aportes_edad mjoin list_join]. rewrite forallb_app, (IH _ Hc Hids), andb_true_r.
  destruct (fuera_de_rango m); [|done].
  cbn [forallb problema_edad id valor_actual from_option].
  rewrite andb_true_r. apply andb_true_iff. split.
  - unfold get in *. by destruct (buscar "id" m).
  - by destruct (get m "edad" (VInt 0)).
Qed.

Lemma reporte_sin_adopciones_serializable (e : entorno) (ahora : string)
    (mascotas : list registro) (r : reporte_t) :
  edades_comparables mascotas →
  Forall (λ m, serializable (get m "id" VNone) = true) mascotas →
  transformar_datos ahora (datos_extraidos e mascotas []) =
    Ok (datos_extraidos e mascotas [], r) →
  reporte_serializable r = true.
Proof.
  intros Hc Hids Htrans.
  destruct (buscar_datos_extraidos e mascotas []) as [Hm' Ha'].
  rewrite (transformar_datos_ok _ _ _ _ Hm' Ha' Hc) in Htrans.
  injection Htrans as <-. unfold reporte_serializable.
  cbn [problemas fmap list_fmap mjoin list_join]. rewrite app_nil_r.
  by apply aportes_edad_serializables.
Qed.

(** Corrida con cero adopciones, de punta a punta: termina con [True], el
    reporte escrito tiene [total_adopciones = 0] y ningún problema
    ["relacion_invalida"], y la lista de archivos generados es el CSV de
    mascotas seguido del reporte. *)
Lemma corrida_sin_adopciones (e : entorno) (w : mundo)
    (primera : registro) (otras : list registro) :
  existe_bd e = true →
  almacen e !! "mascotas" = Some (primera :: otras) →
  almacen e !! "adopciones" = Some [] →
  edades_comparables (primera :: otras) →
  (∀ ruta, abre e ruta = true) →
  Forall (λ r, keys r ⊆ keys primera) (primera :: otras) →
  Forall (λ m, serializable (get m "id" VNone) = true) (primera :: otras) →
  ∃ (reporte : reporte_t) (w' : mundo),
    let dir := unir e (unir e proyecto_path "pipeline") "backups" in
    ejecutar_pipeline e w = (Ok true, w') ∧
    total_adopciones (estadisticas reporte) = 0%nat ∧
    filter (λ p, tipo p = "relacion_invalida") (problemas reporte) = [] ∧
    disco w' !! ruta_json e dir (ahora_archivo e) = Some (JSON reporte) ∧
    is_Some (disco w' !! ruta_csv e dir (ahora_archivo e) "mascotas") ∧
    disco w' !! ruta_csv e dir (ahora_archivo e) "adopciones" =
      disco w !! ruta_csv e dir (ahora_archivo e) "adopciones" ∧
    last (consola w') =
      Some (EvCompletado [ruta_csv e dir (ahora_archivo e) "mascotas";
                          ruta_json e dir (ahora_archivo e)]
                         (estadisticas reporte)).
Proof.
  intros Hbd Hm Ha Hc Habre Hunif Hids.
  destruct (ejecutar_pipeline_ok e w _ _ Hbd Hm Ha Hc)
    as (reporte & archivos & w1 & Htrans & Hguardar & Hrun).
  pose proof (reporte_sin_adopciones_serializable _ _ _ _ Hc Hids Htrans) as Hser.
  destruct (buscar_datos_extraidos e (primera :: otras) []) as [Hm' Ha'].
  destruct (sin_adopciones_sin_relaciones _ _ _ _ _ Hm' Ha' Htrans) as [Htotal Hrel].
  set (dir := unir e (unir e proyecto_path "pipeline") "backups") in *.
  set (ts := ahora_archivo e).
  assert (NoDup (keys (datos_extraidos e (primera :: otras) []))) as Hnd.
  { unfold datos_extraidos. destruct (orden_invertido e);
      (apply NoDup_cons; split; [|apply NoDup_singleton]);
      by intros [=]%list_elem_of_singleton. }
  assert (Forall (λ item, filas_uniformes item.2)
                 (datos_extraidos e (primera :: otras) [])) as Hunif'.
  { unfold datos_extraidos. destruct (orden_invertido e);
      repeat (apply Forall_cons; split); try (by apply Forall_nil);
      intros primero [= <-]; done. }
  assert (error_json e (ruta_json e dir ts) reporte = None) as Hjson.
  { unfold error_json. by rewrite Habre, Hser. }
  rewrite guardar_backups_spec in Hguardar. fold ts in Hguardar.
  injection Hguardar as <- <-.
  destruct (reporte_escrito e dir ts reporte
              (foldl (disco_tras_tabla e dir ts)
                     (disco (mundo_tras_validar e (primera :: otras) [] reporte w))
                     (datos_extraidos e (primera :: otras) [])) Hjson)
    as (Harch & _ & Hdisco).
  exists reporte. eexists. split; [exact Hrun|].
  rewrite !disco_efecto, consola_efecto, last_snoc.
  split_and!; [done|done|exact Hdisco| | |].
  - erewrite (respaldo_tabla_llena e _ reporte dir ts _ "mascotas" primera otras
                Hnd Habre Hunif'); [done|].
    unfold datos_extraidos. destruct (orden_invertido e); repeat constructor.
  - apply (respaldo_tabla_vacia e _ reporte dir ts _ "adopciones" Hnd).
    unfold datos_extraidos. destruct (orden_invertido e); repeat constructor.
  - rewrite Harch, (archivos_sin_fallos _ _ _ _ Habre Hunif').
    unfold datos_extraidos. by destruct (orden_invertido e).
Qed.

(** C2 (defecto del código). Una fila de [mascotas] tal como la entrega la
    extracción, con la columna [edad] nula: [mascota.get("edad", 0)] devuelve
    [None], no 0; la transformación levanta [TypeError] en vez de tratar la
    edad como 0, y la corrida termina con [False] sin escribir ningún
    archivo. *)
Theorem edad_nula_aborta :
  get [("id", VInt 1); ("nombre", VStr "Max"); ("edad", VNone)] "edad" (VInt 0) = VNone ∧
  transformar_datos "2024-05-01T10:00:00"
    [("mascotas", [[("id", VInt 1); ("nombre", VStr "Max"); ("edad", VNone)]]);
     ("adopciones", [])] = Error TypeError ∧
  ∃ w' : mundo,
    ejecutar_pipeline entorno_edad_nula mundo_inicial = (Ok false, w') ∧
    disco w' = ∅ ∧
    last (consola w') = Some (EvErrorPipeline TypeError).
Proof.
  split; [reflexivity|]. split; [reflexivity|].
  apply (ejecutar_pipeline_edad_nula entorno_edad_nula mundo_inicial
           [[("id", VInt 1); ("nombre", VStr "Max"); ("edad", VNone)]] []
           [("id", VInt 1); ("nombre", VStr "Max"); ("edad", VNone)]).
  - reflexivity.
  - reflexivity.
  - reflexivity.
  - by left.
  - reflexivity.
Qed.

(** * Más propiedades de [transformar_datos] *)

Lemma mjoin_cons_eq {A} (x : list A) (l : list (list A)) :
  mjoin (x :: l) = x ++ mjoin l.
Proof. done. Qed.

Lemma aportes_edad_cuenta (mascotas : list registro) :
  ∀ idx, length (mjoin (aportes_edad idx mascotas)) =
         length (filter (λ m, fuera_de_rango m = true) mascotas).
Proof.
  induction mascotas as [|m resto IH]; intros idx; [done|].
  cbn [aportes_edad mjoin list_join]. rewrite length_app, IH.
  destruct (fuera_de_rango m) eqn:Hf.
  - by rewrite filter_cons_True.
  - by rewrite filter_cons_False by (by rewrite Hf).
Qed.

Lemma aportes_relacion_cuenta (ids : list valor) (adopciones : list registro) :
  length (mjoin (aporte_relacion ids <$> adopciones)) =
  length (filter (λ a, Py.pertenece (get a "mascota_id" VNone) ids = false) adopciones).
Proof.
  induction adopciones as [|a resto IH]; [done|].
  rewrite fmap_cons, mjoin_cons_eq, length_app, IH.
  unfold aporte_relacion. destruct (Py.pertenece _ ids) eqn:Hp.
  - by rewrite filter_cons_False by (by rewrite Hp).
  - by rewrite filter_cons_True.
Qed.

Lemma fuera_de_rango_false (m : registro) :
  fuera_de_rango m = false ↔
  Py.como_int (get m "edad" (VInt 0)) = None ∨
  ∃ z, Py.como_int (get m "edad" (VInt 0)) = Some z ∧ 0 ≤ z ≤ 30.
Proof.
  unfold fuera_de_rango. destruct (Py.como_int _) as [z|]; [|by split; [left|]].
  rewrite negb_false_iff, andb_true_iff, !Z.leb_le. split.
  - intros ?. right. by exists z.
  - intros [[=]|(z' & [= <-] & ?)]. done.
Qed.

(** X1. Resultados de [transformar_datos]: sin la tabla ["mascotas"] levanta
    [KeyError] de esa clave (también si falta además ["adopciones"]); con
    mascotas pero sin ["adopciones"] levanta [KeyError] de ["adopciones"],
    aunque haya edades no numéricas; con las dos tablas devuelve los mismos
    datos y un reporte si todas las edades son numéricas, y levanta
    [TypeError] si alguna no lo es. *)
Theorem transformar_datos_resultados (ahora : string) (datos : datos_t) :
  match buscar "mascotas" datos, buscar "adopciones" datos with
  | None, _ => transformar_datos ahora datos = Error (KeyError "mascotas")
  | Some _, None => transformar_datos ahora datos = Error (KeyError "adopciones")
  | Some mascotas, Some _ =>
      (edades_comparables mascotas ∧
       ∃ r, transformar_datos ahora datos = Ok (datos, r)) ∨
      (Exists (λ m, Py.como_int (get m "edad" (VInt 0)) = None) mascotas ∧
       transformar_datos ahora datos = Error TypeError)
  end.
Proof.
  destruct (buscar "mascotas" datos) as [mascotas|] eqn:Hm.
  - destruct (buscar "adopciones" datos) as [adopciones|] eqn:Ha.
    + destruct (decide (edades_comparables mascotas)) as [Hc|Hno].
      * left. split; [done|]. eexists. by apply transformar_datos_ok.
      * right. split; [|by eapply transformar_datos_TypeError].
        apply not_Forall_Exists in Hno; [|apply _].
        eapply Exists_impl; [exact Hno|]. intros m Hm'. simpl in Hm'.
        by apply eq_None_not_Some.
    + unfold transformar_datos, subindice. by rewrite Hm, Ha.
  - unfold transformar_datos, subindice. by rewrite Hm.
Qed.

(** X2. Cuando la transformación devuelve un reporte, el número de problemas
    es el de mascotas con edad fuera de rango más el de adopciones cuya
    referencia no está entre los ids de mascotas, y no supera
    [total_mascotas + total_adopciones]. *)
Theorem conteo_de_problemas (ahora : string) (datos : datos_t)
    (mascotas adopciones : list registro) :
  buscar "mascotas" datos = Some mascotas →
  buscar "adopciones" datos = Some adopciones →
  edades_comparables mascotas →
  ∃ r : reporte_t,
    transformar_datos ahora datos = Ok (datos, r) ∧
    length (problemas r) =
      (length (filter (λ m, fuera_de_rango m = true) mascotas) +
       length (filter (λ a, Py.pertenece (get a "mascota_id" VNone)
                                         (ids_mascotas mascotas) = false)
                      adopciones))%nat ∧
    (length (problemas r) ≤
       total_mascotas (estadisticas r) + total_adopciones (estadisticas r))%nat.
Proof.
  intros Hm Ha Hc. eexists. split; [by apply transformar_datos_ok|].
  cbn [problemas estadisticas estadisticas_de total_mascotas total_adopciones].
  rewrite length_app, aportes_edad_cuenta, aportes_relacion_cuenta.
  split; [done|].
  pose proof (length_filter (λ m, fuera_de_rango m = true) mascotas).
  pose proof (length_filter
                (λ a, Py.pertenece (get a "mascota_id" VNone)
                                   (ids_mascotas mascotas) = false) adopciones).
  lia.
Qed.

Lemma conteo_de_problemas_testigo :
  ∃ r : reporte_t,
    transformar_datos "2024-05-01T10:00:00"
      [("mascotas", [[("id", VInt 1); ("edad", VInt 35)]; [("id", VInt 2); ("edad", VInt 3)]]);
       ("adopciones", [[("id", VInt 1); ("mascota_id", VInt 1)];
                       [("id", VInt 2); ("mascota_id", VInt 99)]])] =
      Ok ([("mascotas", [[("id", VInt 1); ("edad", VInt 35)]; [("id", VInt 2); ("edad", VInt 3)]]);
           ("adopciones", [[("id", VInt 1); ("mascota_id", VInt 1)];
                           [("id", VInt 2); ("mascota_id", VInt 99)]])], r) ∧
    length (problemas r) = 2%nat.
Proof.
  destruct (conteo_de_problemas "2024-05-01T10:00:00"
      [("mascotas", [[("id", VInt 1); ("edad", VInt 35)]; [("id", VInt 2); ("edad", VInt 3)]]);
       ("adopciones", [[("id", VInt 1); ("mascota_id", VInt 1)];
                       [("id", VInt 2); ("mascota_id", VInt 99)]])]
      [[("id", VInt 1); ("edad", VInt 35)]; [("id", VInt 2); ("edad", VInt 3)]]
      [[("id", VInt 1); ("mascota_id", VInt 1)]; [("id", VInt 2); ("mascota_id", VInt 99)]])
    as (r & Hok & Hn & _).
  - reflexivity.
  - reflexivity.
  - repeat constructor; by eexists.
  - exists r. split; [done|]. rewrite Hn. reflexivity.
Defined.

Lemma aportes_edad_vacios (mascotas : list registro) :
  ∀ idx, Forall (.= []) (aportes_edad idx mascotas) ↔
         Forall (λ m, fuera_de_rango m = false) mascotas.
Proof.
  induction mascotas as [|m resto IH]; intros idx; simpl.
  - split; constructor.
  - rewrite !Forall_cons, IH. destruct (fuera_de_rango m).
    + split; intros [H _]; discriminate H.
    + split; intros [_ ?]; done.
Qed.

Lemma aporte_relacion_vacio (mascotas : list registro) (a : registro) :
  aporte_relacion (ids_mascotas mascotas) a = [] ↔
  coincide (get a "mascota_id" VNone) mascotas.
Proof.
  rewrite <-pertenece_coincide. unfold aporte_relacion.
  by destruct (Py.pertenece _ _).
Qed.

(** X3. Cuando la transformación devuelve un reporte, su lista de problemas
    es vacía si y sólo si toda mascota tiene la edad en [0, 30] y toda
    adopción refiere a una mascota presente. *)
Theorem reporte_limpio_sii (ahora : string) (datos : datos_t)
    (mascotas adopciones : list registro) :
  buscar "mascotas" datos = Some mascotas →
  buscar "adopciones" datos = Some adopciones →
  edades_comparables mascotas →
  ∃ r : reporte_t,
    transformar_datos ahora datos = Ok (datos, r) ∧
    (problemas r = [] ↔
     Forall (λ m, ∃ z, Py.como_int (get m "edad" (VInt 0)) = Some z ∧ 0 ≤ z ≤ 30)
            mascotas ∧
     Forall (λ a, coincide (get a "mascota_id" VNone) mascotas) adopciones).
Proof.
  intros Hm Ha Hc. eexists. split; [by apply transformar_datos_ok|].
  cbn [problemas]. rewrite app_nil, !join_nil, aportes_edad_vacios, Forall_fmap.
  assert (Forall (λ m, fuera_de_rango m = false) mascotas ↔
          Forall (λ m, ∃ z, Py.como_int (get m "edad" (VInt 0)) = Some z ∧ 0 ≤ z ≤ 30)
                 mascotas) as Hedades.
  { unfold edades_comparables in Hc. rewrite !Forall_forall in *.
    split; intros H m Hin.
    - specialize (H m Hin). apply fuera_de_rango_false in H as [Hnone|?]; [|done].
      destruct (Hc m Hin) as [z Hz]. congruence.
    - apply fuera_de_rango_false. right. by apply H. }
  assert (Forall (λ a, aporte_relacion (ids_mascotas mascotas) a = []) adopciones ↔
          Forall (λ a, coincide (get a "mascota_id" VNone) mascotas) adopciones)
    as Hrelaciones.
  { apply Forall_iff. intros a. apply aporte_relacion_vacio. }
  tauto.
Qed.

Lemma reporte_limpio_sii_testigo :
  ∃ r : reporte_t,
    transformar_datos "2024-05-01T10:00:00"
      [("mascotas", [[("id", VInt 1); ("edad", VInt 0)]; [("id", VInt 2); ("edad", VInt 30)]]);
       ("adopciones", [[("id", VInt 7); ("mascota_id", VInt 2)]])] =
      Ok ([("mascotas", [[("id", VInt 1); ("edad", VInt 0)]; [("id", VInt 2); ("edad", VInt 30)]]);
           ("adopciones", [[("id", VInt 7); ("mascota_id", VInt 2)]])], r) ∧
    problemas r = [].
Proof.
  destruct (reporte_limpio_sii "2024-05-01T10:00:00"
      [("mascotas", [[("id", VInt 1); ("edad", VInt 0)]; [("id", VInt 2); ("edad", VInt 30)]]);
       ("adopciones", [[("id", VInt 7); ("mascota_id", VInt 2)]])]
      [[("id", VInt 1); ("edad", VInt 0)]; [("id", VInt 2); ("edad", VInt 30)]]
      [[("id", VInt 7); ("mascota_id", VInt 2)]])
    as (r & Hok & Hlimpio).
  - reflexivity.
  - reflexivity.
  - repeat constructor; by eexists.
  - exists r. split; [done|]. apply Hlimpio. split.
    + repeat constructor; eexists; (split; [reflexivity|lia]).
    + repeat constructor. apply pertenece_coincide. reflexivity.
Defined.

Lemma aportes_sin_ids (adopciones : list registro) :
  mjoin (aporte_relacion [] <$> adopciones) =
  (λ a, problema_relacion a (get a "mascota_id" VNone)) <$> adopciones.
Proof.
  induction adopciones as [|a resto IH]; [done|].
  by rewrite !fmap_cons, mjoin_cons_eq, IH.
Qed.

(** X4. Con la tabla de mascotas vacía, la transformación marca todas las
    adopciones: los problemas son, en orden, el problema de relación de cada
    adopción, y las estadísticas son 0 mascotas, 0 adoptadas y el número de
    adopciones. *)
Theorem sin_mascotas_todas_huerfanas (ahora : string) (datos : datos_t)
    (adopciones : list registro) :
  buscar "mascotas" datos = Some [] →
  buscar "adopciones" datos = Some adopciones →
  transformar_datos ahora datos =
    Ok (datos,
        {| timestamp := ahora;
           estadisticas := {| total_mascotas := 0; mascotas_adoptadas := 0;
                              total_adopciones := length adopciones |};
           problemas := (λ a, problema_relacion a (get a "mascota_id" VNone))
                          <$> adopciones |}).
Proof.
  intros Hm Ha. rewrite (transformar_datos_ok _ _ _ _ Hm Ha); [|constructor].
  cbn [aportes_edad mjoin list_join ids_mascotas app]. by rewrite aportes_sin_ids.
Qed.

Lemma sin_mascotas_todas_huerfanas_testigo :
  transformar_datos "2024-05-01T10:00:00"
    [("adopciones", [[("id", VInt 7); ("mascota_id", VInt 2)]; [("id", VInt 8)]]);
     ("mascotas", [])] =
    Ok ([("adopciones", [[("id", VInt 7); ("mascota_id", VInt 2)]; [("id", VInt 8)]]);
         ("mascotas", [])],
        {| timestamp := "2024-05-01T10:00:00";
           estadisticas := {| total_mascotas := 0; mascotas_adoptadas := 0;
                              total_adopciones := 2 |};
           problemas :=
             [ {| tipo := "relacion_invalida"; tabla := "adopciones"; id := VInt 7;
                  valor_actual := None; mensaje := "Mascota 2 no existe" |};
               {| tipo := "relacion_invalida"; tabla := "adopciones"; id := VInt 8;
                  valor_actual := None; mensaje := "Mascota None no existe" |} ] |}).
Proof.
  apply (sin_mascotas_todas_huerfanas "2024-05-01T10:00:00"
           [("adopciones", [[("id", VInt 7); ("mascota_id", VInt 2)]; [("id", VInt 8)]]);
            ("mascotas", [])]
           [[("id", VInt 7); ("mascota_id", VInt 2)]; [("id", VInt 8)]]);
    reflexivity.
Defined.

Lemma coincide_mas_mascotas (ref : valor) (mascotas extra : list registro) :
  coincide ref mascotas → coincide ref (mascotas ++ extra).
Proof.
  intros (m & v & Hin & ?). exists m, v. split; [|done].
  apply elem_of_app. by left.
Qed.

Lemma coincide_permutacion (ref : valor) (mascotas mascotas' : list registro) :
  mascotas ≡ₚ mascotas' → coincide ref mascotas → coincide ref mascotas'.
Proof.
  intros Hp (m & v & Hin & ?). exists m, v. split; [|done]. by rewrite <-Hp.
Qed.

Lemma aportes_relacion_sublista (mascotas mascotas' adopciones : list registro) :
  (∀ ref, coincide ref mascotas → coincide ref mascotas') →
  mjoin (aporte_relacion (ids_mascotas mascotas') <$> adopciones)
    `sublist_of` mjoin (aporte_relacion (ids_mascotas mascotas) <$> adopciones).
Proof.
  intros Hmas. induction adopciones as [|a resto IH]; [done|].
  rewrite !fmap_cons, !mjoin_cons_eq. apply sublist_app; [|done].
  unfold aporte_relacion.
  destruct (Py.pertenece _ (ids_mascotas mascotas)) eqn:Hp.
  - apply pertenece_coincide, Hmas, pertenece_coincide in Hp. by rewrite Hp.
  - destruct (Py.pertenece _ (ids_mascotas mascotas')); [apply sublist_nil_l|done].
Qed.

Lemma aportes_relacion_iguales (mascotas mascotas' adopciones : list registro) :
  (∀ ref, coincide ref mascotas ↔ coincide ref mascotas') →
  mjoin (aporte_relacion (ids_mascotas mascotas') <$> adopciones) =
  mjoin (aporte_relacion (ids_mascotas mascotas) <$> adopciones).
Proof.
  intros Hmas. induction adopciones as [|a resto IH]; [done|].
  rewrite !fmap_cons, !mjoin_cons_eq, IH. f_equal.
  unfold aporte_relacion.
  destruct (Py.pertenece _ (ids_mascotas mascotas)) eqn:Hp.
  - apply pertenece_coincide, Hmas, pertenece_coincide in Hp. by rewrite Hp.
  - destruct (Py.pertenece _ (ids_mascotas mascotas')) eqn:Hp'; [|done].
    apply pertenece_coincide, Hmas, pertenece_coincide in Hp'. congruence.
Qed.

Lemma problemas_de_relacion (ahora : string) (mascotas adopciones : list registro)
    (d : datos_t) (r : reporte_t) :
  transformar_datos ahora [("mascotas", mascotas); ("adopciones", adopciones)] = Ok (d, r) →
  edades_comparables mascotas ∧
  problemas r = mjoin (aportes_edad 0 mascotas) ++
                mjoin (aporte_relacion (ids_mascotas mascotas) <$> adopciones) ∧
  filter (λ p, tipo p = "relacion_invalida") (problemas r) =
    mjoin (aporte_relacion (ids_mascotas mascotas) <$> adopciones).
Proof.
  intros Htrans.
  assert (edades_comparables mascotas) as Hc.
  { by apply (transformar_datos_Ok_comparables ahora
                [("mascotas", mascotas); ("adopciones", adopciones)] d r
                mascotas adopciones eq_refl eq_refl). }
  rewrite (transformar_datos_ok ahora [("mascotas", mascotas); ("adopciones", adopciones)]
             mascotas adopciones eq_refl eq_refl Hc) in Htrans.
  injection Htrans as <- <-. split; [done|]. split; [done|].
  apply filtro_relacion; [apply aportes_edad_tipo|apply aportes_relacion_tipo].
Qed.

(** X5. Añadir filas de mascotas nunca crea problemas de relación: con las
    mismas adopciones, los problemas ["relacion_invalida"] del reporte sobre
    más mascotas son una sublista de los del reporte original. *)
Theorem mas_mascotas_menos_huerfanas (ahora : string)
    (mascotas extra adopciones : list registro) (d1 d2 : datos_t) (r1 r2 : reporte_t) :
  transformar_datos ahora [("mascotas", mascotas); ("adopciones", adopciones)] =
    Ok (d1, r1) →
  transformar_datos ahora [("mascotas", mascotas ++ extra); ("adopciones", adopciones)] =
    Ok (d2, r2) →
  filter (λ p, tipo p = "relacion_invalida") (problemas r2)
    `sublist_of` filter (λ p, tipo p = "relacion_invalida") (problemas r1).
Proof.
  intros (_ & _ & ->)%problemas_de_relacion (_ & _ & ->)%problemas_de_relacion.
  apply aportes_relacion_sublista. intros ref. apply coincide_mas_mascotas.
Qed.

Lemma mas_mascotas_menos_huerfanas_testigo :
  ∃ r1 r2 : reporte_t,
    transformar_datos "2024-05-01T10:00:00"
      [("mascotas", [[("id", VInt 1); ("edad", VInt 3)]]);
       ("adopciones", [[("id", VInt 7); ("mascota_id", VInt 2)];
                       [("id", VInt 8); ("mascota_id", VInt 5)]])] =
      Ok ([("mascotas", [[("id", VInt 1); ("edad", VInt 3)]]);
           ("adopciones", [[("id", VInt 7); ("mascota_id", VInt 2)];
                           [("id", VInt 8); ("mascota_id", VInt 5)]])], r1) ∧
    transformar_datos "2024-05-01T10:00:00"
      [("mascotas", [[("id", VInt 1); ("edad", VInt 3)]] ++ [[("id", VInt 2); ("edad", VInt 4)]]);
       ("adopciones", [[("id", VInt 7); ("mascota_id", VInt 2)];
                       [("id", VInt 8); ("mascota_id", VInt 5)]])] =
      Ok ([("mascotas", [[("id", VInt 1); ("edad", VInt 3)]] ++ [[("id", VInt 2); ("edad", VInt 4)]]);
           ("adopciones", [[("id", VInt 7); ("mascota_id", VInt 2)];
                           [("id", VInt 8); ("mascota_id", VInt 5)]])], r2) ∧
    filter (λ p, tipo p = "relacion_invalida") (problemas r2)
      `sublist_of` filter (λ p, tipo p = "relacion_invalida") (problemas r1).
Proof.
  eexists _, _. split; [reflexivity|]. split; [reflexivity|].
  eapply (mas_mascotas_menos_huerfanas "2024-05-01T10:00:00"
            [[("id", VInt 1); ("edad", VInt 3)]] [[("id", VInt 2); ("edad", VInt 4)]]
            [[("id", VInt 7); ("mascota_id", VInt 2)]; [("id", VInt 8); ("mascota_id", VInt 5)]]);
    reflexivity.
Defined.

(** X6. El orden de las filas de mascotas no cambia los problemas de
    relación: dos listas de mascotas que son permutación una de otra dan,
    con las mismas adopciones, los mismos problemas ["relacion_invalida"]. *)
Theorem relaciones_sin_orden_de_mascotas (ahora : string)
    (mascotas mascotas' adopciones : list registro) (d1 d2 : datos_t)
    (r1 r2 : reporte_t) :
  mascotas ≡ₚ mascotas' →
  transformar_datos ahora [("mascotas", mascotas); ("adopciones", adopciones)] =
    Ok (d1, r1) →
  transformar_datos ahora [("mascotas", mascotas'); ("adopciones", adopciones)] =
    Ok (d2, r2) →
  filter (λ p, tipo p = "relacion_invalida") (problemas r1) =
  filter (λ p, tipo p = "relacion_invalida") (problemas r2).
Proof.
  intros Hp (_ & _ & ->)%problemas_de_relacion (_ & _ & ->)%problemas_de_relacion.
  symmetry. apply aportes_relacion_iguales. intros ref.
  split; apply coincide_permutacion; [done|by symmetry].
Qed.

Lemma relaciones_sin_orden_de_mascotas_testigo :
  ∃ r1 r2 : reporte_t,
    transformar_datos "2024-05-01T10:00:00"
      [("mascotas", [[("id", VInt 1); ("edad", VInt 3)]; [("id", VInt 2); ("edad", VInt 40)]]);
       ("adopciones", [[("id", VInt 7); ("mascota_id", VInt 2)];
                       [("id", VInt 8); ("mascota_id", VInt 5)]])] =
      Ok ([("mascotas", [[("id", VInt 1); ("edad", VInt 3)]; [("id", VInt 2); ("edad", VInt 40)]]);
           ("adopciones", [[("id", VInt 7); ("mascota_id", VInt 2)];
                           [("id", VInt 8); ("mascota_id", VInt 5)]])], r1) ∧
    transformar_datos "2024-05-01T10:00:00"
      [("mascotas", [[("id", VInt 2); ("edad", VInt 40)]; [("id", VInt 1); ("edad", VInt 3)]]);
       ("adopciones", [[("id", VInt 7); ("mascota_id", VInt 2)];
                       [("id", VInt 8); ("mascota_id", VInt 5)]])] =
      Ok ([("mascotas", [[("id", VInt 2); ("edad", VInt 40)]; [("id", VInt 1); ("edad", VInt 3)]]);
           ("adopciones", [[("id", VInt 7); ("mascota_id", VInt 2)];
                           [("id", VInt 8); ("mascota_id", VInt 5)]])], r2) ∧
    filter (λ p, tipo p = "relacion_invalida") (problemas r1) =
    filter (λ p, tipo p = "relacion_invalida") (problemas r2).
Proof.
  eexists _, _. split; [reflexivity|]. split; [reflexivity|].
  eapply (relaciones_sin_orden_de_mascotas "2024-05-01T10:00:00"
            [[("id", VInt 1); ("edad", VInt 3)]; [("id", VInt 2); ("edad", VInt 40)]]
            [[("id", VInt 2); ("edad", VInt 40)]; [("id", VInt 1); ("edad", VInt 3)]]
            [[("id", VInt 7); ("mascota_id", VInt 2)]; [("id", VInt 8); ("mascota_id", VInt 5)]]).
  - apply perm_swap.
  - reflexivity.
  - reflexivity.
Defined.

(** X7. Concatenar adopciones concatena los reportes: con las mismas
    mascotas, los problemas del reporte sobre [adopciones1 ++ adopciones2]
    son los del reporte sobre [adopciones1] seguidos de los problemas de
    relación del reporte sobre [adopciones2], y [total_adopciones] es la
    suma. *)
Theorem adopciones_concatenadas (ahora : string)
    (mascotas adopciones1 adopciones2 : list registro) (d1 d2 : datos_t)
    (r1 r2 : reporte_t) :
  transformar_datos ahora [("mascotas", mascotas); ("adopciones", adopciones1)] =
    Ok (d1, r1) →
  transformar_datos ahora [("mascotas", mascotas); ("adopciones", adopciones2)] =
    Ok (d2, r2) →
  ∃ r : reporte_t,
    transformar_datos ahora
      [("mascotas", mascotas); ("adopciones", adopciones1 ++ adopciones2)] =
      Ok ([("mascotas", mascotas); ("adopciones", adopciones1 ++ adopciones2)], r) ∧
    problemas r =
      problemas r1 ++ filter (λ p, tipo p = "relacion_invalida") (problemas r2) ∧
    total_adopciones (estadisticas r) =
      (total_adopciones (estadisticas r1) + total_adopciones (estadisticas r2))%nat.
Proof.
  intros H1 H2.
  destruct (problemas_de_relacion _ _ _ _ _ H1) as (Hc & Hp1 & _).
  destruct (problemas_de_relacion _ _ _ _ _ H2) as (_ & _ & Hp2).
  rewrite (transformar_datos_ok ahora [("mascotas", mascotas); ("adopciones", adopciones1)]
             mascotas adopciones1 eq_refl eq_refl Hc) in H1.
  rewrite (transformar_datos_ok ahora [("mascotas", mascotas); ("adopciones", adopciones2)]
             mascotas adopciones2 eq_refl eq_refl Hc) in H2.
  eexists. split.
  { exact (transformar_datos_ok ahora
             [("mascotas", mascotas); ("adopciones", adopciones1 ++ adopciones2)]
             mascotas (adopciones1 ++ adopciones2) eq_refl eq_refl Hc). }
  injection H1 as _ <-. injection H2 as _ <-.
  cbn [problemas estadisticas estadisticas_de total_adopciones] in *.
  rewrite Hp2, fmap_app, join_app, length_app. by rewrite app_assoc.
Qed.

Lemma adopciones_concatenadas_testigo :
  ∃ r : reporte_t,
    transformar_datos "2024-05-01T10:00:00"
      [("mascotas", [[("id", VInt 1); ("edad", VInt 35)]]);
       ("adopciones", [[("id", VInt 7); ("mascota_id", VInt 2)]] ++
                      [[("id", VInt 8); ("mascota_id", VInt 1)];
                       [("id", VInt 9); ("mascota_id", VInt 5)]])] =
      Ok ([("mascotas", [[("id", VInt 1); ("edad", VInt 35)]]);
           ("adopciones", [[("id", VInt 7); ("mascota_id", VInt 2)]] ++
                          [[("id", VInt 8); ("mascota_id", VInt 1)];
                           [("id", VInt 9); ("mascota_id", VInt 5)]])], r) ∧
    length (problemas r) = 3%nat ∧
    total_adopciones (estadisticas r) = 3%nat.
Proof.
  destruct (adopciones_concatenadas "2024-05-01T10:00:00"
      [[("id", VInt 1); ("edad", VInt 35)]]
      [[("id", VInt 7); ("mascota_id", VInt 2)]]
      [[("id", VInt 8); ("mascota_id", VInt 1)]; [("id", VInt 9); ("mascota_id", VInt 5)]]
      _ _ _ _ eq_refl eq_refl) as (r & Hok & Hp & Ht).
  exists r. split; [exact Hok|]. by rewrite Hp, Ht.
Defined.

(** * Más propiedades de [extraer_datos] *)

(** X8. Con las dos tablas requeridas en el catálogo, la extracción devuelve
    un [dict] con exactamente las claves ["mascotas"] y ["adopciones"], cada
    una con las filas del almacén en su orden; lee esas dos tablas, una vez
    cada una, y nada más (las demás tablas del almacén ni se leen ni se
    devuelven); no toca disco, consola ni directorios. *)
Theorem extraccion_exacta (e : entorno) (w : mundo)
    (mascotas adopciones : list registro) :
  almacen e !! "mascotas" = Some mascotas →
  almacen e !! "adopciones" = Some adopciones →
  ∃ (datos : datos_t) (w' : mundo) (leidas : list string),
    extraer_datos e w = (Ok datos, w') ∧
    buscar "mascotas" datos = Some mascotas ∧
    buscar "adopciones" datos = Some adopciones ∧
    keys datos ≡ₚ ["mascotas"; "adopciones"] ∧
    lecturas w' = lecturas w ++ leidas ∧
    leidas ≡ₚ ["mascotas"; "adopciones"] ∧
    disco w' = disco w ∧ consola w' = consola w ∧ directorios w' = directorios w.
Proof.
  intros Hm Ha. eexists _, _, (recorrido_requeridas e).
  split; [by apply extraer_datos_ok|].
  destruct (buscar_datos_extraidos e mascotas adopciones) as [Hm' Ha'].
  split_and!; [done|done| |done| |done|done|done].
  - unfold datos_extraidos. destruct (orden_invertido e); [apply perm_swap|done].
  - unfold recorrido_requeridas. destruct (orden_invertido e); [apply perm_swap|done].
Qed.

Lemma extraccion_exacta_testigo :
  ∃ (datos : datos_t) (w' : mundo),
    extraer_datos
      {| existe_bd := true;
         almacen := {[ "mascotas" := [[("id", VInt 1); ("edad", VInt 3)]];
                       "usuarios" := [[("id", VInt 9); ("username", VStr "ana")]];
                       "adopciones" := [[("id", VInt 4); ("mascota_id", VInt 1)]] ]};
         orden_invertido := true; abre := λ _, true;
         ahora_iso := "2024-05-01T10:00:00"; ahora_archivo := "20240501_100000";
         sep := "/" |} mundo_inicial = (Ok datos, w') ∧
    buscar "usuarios" datos = None ∧
    buscar "mascotas" datos = Some [[("id", VInt 1); ("edad", VInt 3)]] ∧
    lecturas w' = ["adopciones"; "mascotas"].
Proof.
  destruct (extraccion_exacta
      {| existe_bd := true;
         almacen := {[ "mascotas" := [[("id", VInt 1); ("edad", VInt 3)]];
                       "usuarios" := [[("id", VInt 9); ("username", VStr "ana")]];
                       "adopciones" := [[("id", VInt 4); ("mascota_id", VInt 1)]] ]};
         orden_invertido := true; abre := λ _, true;
         ahora_iso := "2024-05-01T10:00:00"; ahora_archivo := "20240501_100000";
         sep := "/" |} mundo_inicial
      [[("id", VInt 1); ("edad", VInt 3)]] [[("id", VInt 4); ("mascota_id", VInt 1)]])
    as (datos & w' & leidas & Hex & Hm & _ & _ & _ & _).
  - reflexivity.
  - reflexivity.
  - exists datos, w'. split; [exact Hex|].
    vm_compute in Hex. injection Hex as <- <-. by split_and!.
Defined.


(** X10. Dos corridas sobre el mismo almacén, con relojes, disco y orden de
    recorrido del conjunto de tablas cualesquiera: la extracción seguida de
    la transformación da en ambas las mismas estadísticas y la misma lista de
    problemas, aunque el [dict] extraído tenga las tablas en otro orden. *)
Theorem corridas_sobre_el_mismo_almacen (e1 e2 : entorno) (w1 w2 : mundo)
    (mascotas adopciones : list registro) :
  almacen e1 = almacen e2 →
  almacen e1 !! "mascotas" = Some mascotas →
  almacen e1 !! "adopciones" = Some adopciones →
  edades_comparables mascotas →
  ∃ d1 d2 r1 r2,
    (extraer_datos e1 w1).1 = Ok d1 ∧ (extraer_datos e2 w2).1 = Ok d2 ∧
    d1 ≡ₚ d2 ∧
    transformar_datos (ahora_iso e1) d1 = Ok (d1, r1) ∧
    transformar_datos (ahora_iso e2) d2 = Ok (d2, r2) ∧
    estadisticas r1 = estadisticas r2 ∧ problemas r1 = problemas r2.
Proof.
  intros Heq Hm Ha Hc.
  rewrite (extraer_datos_ok e1 w1 _ _ Hm Ha).
  rewrite Heq in Hm, Ha. rewrite (extraer_datos_ok e2 w2 _ _ Hm Ha). simpl.
  destruct (buscar_datos_extraidos e1 mascotas adopciones) as [Hm1 Ha1].
  destruct (buscar_datos_extraidos e2 mascotas adopciones) as [Hm2 Ha2].
  exists (datos_extraidos e1 mascotas adopciones), (datos_extraidos e2 mascotas adopciones).
  rewrite (transformar_datos_ok (ahora_iso e1) _ _ _ Hm1 Ha1 Hc).
  rewrite (transformar_datos_ok (ahora_iso e2) _ _ _ Hm2 Ha2 Hc).
  eexists _, _. split_and!; try done.
  unfold datos_extraidos.
  destruct (orden_invertido e1), (orden_invertido e2); try done; apply perm_swap.
Qed.

Lemma corridas_sobre_el_mismo_almacen_testigo :
  ∃ d1 d2 r1 r2,
    (extraer_datos entorno_refugio mundo_inicial).1 = Ok d1 ∧
    (extraer_datos entorno_refugio_tarde mundo_inicial).1 = Ok d2 ∧
    d1 ≡ₚ d2 ∧
    transformar_datos "2024-05-01T10:00:00" d1 = Ok (d1, r1) ∧
    transformar_datos "2024-06-15T23:30:00" d2 = Ok (d2, r2) ∧
    estadisticas r1 = estadisticas r2 ∧ problemas r1 = problemas r2.
Proof.
  apply (corridas_sobre_el_mismo_almacen entorno_refugio entorno_refugio_tarde
           mundo_inicial mundo_inicial
           [[("id", VInt 1); ("edad", VInt 35); ("adoptado", VBool true)];
            [("id", VInt 2); ("edad", VInt 3); ("adoptado", VBool false)]]
           [[("id", VInt 1); ("mascota_id", VInt 1)];
            [("id", VInt 2); ("mascota_id", VInt 99)]]).
  - reflexivity.
  - reflexivity.
  - reflexivity.
  - repeat constructor; by eexists.
Defined.

(** * Más propiedades de [guardar_backups] *)

Lemma disco_tras_tabla_conserva (e : entorno) (dir timestamp : string)
    (d : gmap string contenido) (item : string * list registro) (ruta : string) :
  is_Some (d !! ruta) → is_Some (disco_tras_tabla e dir timestamp d item !! ruta).
Proof.
  intros Hs. unfold disco_tras_tabla. destruct item.2; [done|].
  destruct (abre e _); [|done]. apply lookup_insert_is_Some'. by right.
Qed.

Lemma foldl_disco_conserva (e : entorno) (dir timestamp : string) (items : datos_t) :
  ∀ (d : gmap string contenido) (ruta : string),
    is_Some (d !! ruta) →
    is_Some (foldl (disco_tras_tabla e dir timestamp) d items !! ruta).
Proof.
  induction items as [|item resto IH]; intros d ruta Hs; [done|].
  simpl. by apply IH, disco_tras_tabla_conserva.
Qed.

Lemma disco_tras_reporte_conserva (e : entorno) (dir timestamp : string)
    (r : reporte_t) (d : gmap string contenido) (ruta : string) :
  is_Some (d !! ruta) → is_Some (disco_tras_reporte e dir timestamp r d !! ruta).
Proof.
  intros Hs. unfold disco_tras_reporte. destruct (abre e _); [|done].
  apply lookup_insert_is_Some'. by right.
Qed.

Lemma archivo_de_tabla_Some (e : entorno) (dir timestamp : string)
    (item : string * list registro) (ruta : string) :
  archivo_de_tabla e dir timestamp item = Some ruta →
  ruta = ruta_csv e dir timestamp item.1 ∧ item.2 ≠ [] ∧
  fallo_tabla e dir timestamp item = None ∧
  abre e (ruta_csv e dir timestamp item.1) = true.
Proof.
  unfold archivo_de_tabla, fallo_tabla, error_csv.
  destruct item.2 as [|primero otros]; [done|].
  destruct (abre e _); [|done].
  destruct (error_filas _ _); [done|]. by intros [= <-].
Qed.

Lemma foldl_archivos_en_disco (e : entorno) (dir timestamp : string) (items : datos_t) :
  ∀ (d : gmap string contenido) (ruta : string),
    ruta ∈ omap (archivo_de_tabla e dir timestamp) items →
    is_Some (foldl (disco_tras_tabla e dir timestamp) d items !! ruta).
Proof.
  induction items as [|item resto IH]; intros d ruta Hin.
  - by apply elem_of_nil in Hin.
  - rewrite omap_cons_eq in Hin. simpl.
    destruct (archivo_de_tabla e dir timestamp item) as [ruta'|] eqn:Harch;
      [apply elem_of_cons in Hin as [->|Hin]|]; [|by apply IH..].
    apply archivo_de_tabla_Some in Harch as (-> & Hne & _ & Habre).
    apply foldl_disco_conserva. unfold disco_tras_tabla.
    destruct item.2; [done|]. rewrite Habre. by rewrite lookup_insert_eq.
Qed.

Lemma archivo_de_reporte_en_disco (e : entorno) (dir timestamp : string)
    (r : reporte_t) (d : gmap string contenido) (ruta : string) :
  ruta ∈ archivo_de_reporte e dir timestamp r →
  ruta = ruta_json e dir timestamp ∧
  disco_tras_reporte e dir timestamp r d !! ruta = Some (JSON r).
Proof.
  unfold archivo_de_reporte. intros Hin.
  destruct (error_json e _ r) eqn:Herr; [by apply elem_of_nil in Hin|].
  apply list_elem_of_singleton in Hin as ->. split; [done|].
  by apply reporte_escrito.
Qed.

(** X11. Todo archivo que [guardar_backups] devuelve en su lista existe en
    el disco al terminar, y ningún archivo que ya existía desaparece. *)
Theorem archivos_generados_en_disco (e : entorno) (datos : datos_t)
    (reporte : reporte_t) (dir : string) (w : mundo) :
  ∃ (archivos : list string) (w' : mundo),
    guardar_backups e datos reporte dir w = (Ok archivos, w') ∧
    Forall (λ ruta, is_Some (disco w' !! ruta)) archivos ∧
    dom (disco w) ⊆ dom (disco w').
Proof.
  eexists _, _. split; [apply guardar_backups_spec|]. rewrite disco_efecto. split.
  - apply Forall_forall. intros ruta [Hin|Hin]%elem_of_app.
    + by apply disco_tras_reporte_conserva, foldl_archivos_en_disco.
    + destruct (archivo_de_reporte_en_disco _ _ _ _
                  (foldl (disco_tras_tabla e dir (ahora_archivo e)) (disco w) datos)
                  _ Hin) as [_ ->]. done.
  - intros ruta Hin. apply elem_of_dom. apply elem_of_dom in Hin.
    by apply disco_tras_reporte_conserva, foldl_disco_conserva.
Qed.

(** X12. [guardar_backups] sólo escribe donde debe: no lee el almacén ni
    crea directorios, y toda ruta que no sea la del CSV de una tabla no vacía
    de los datos ni la del reporte queda como estaba. *)
Theorem respaldo_no_toca_lo_ajeno (e : entorno) (datos : datos_t)
    (reporte : reporte_t) (dir : string) (w : mundo) :
  ∃ (archivos : list string) (w' : mundo),
    guardar_backups e datos reporte dir w = (Ok archivos, w') ∧
    lecturas w' = lecturas w ∧
    directorios w' = directorios w ∧
    ∀ ruta,
      Forall (λ item, item.2 = [] ∨ ruta ≠ ruta_csv e dir (ahora_archivo e) item.1)
             datos →
      ruta ≠ ruta_json e dir (ahora_archivo e) →
      disco w' !! ruta = disco w !! ruta.
Proof.
  eexists _, _. split; [apply guardar_backups_spec|]. rewrite disco_efecto.
  split; [done|]. split; [done|]. intros ruta Hajena Hjson.
  rewrite disco_tras_reporte_otro by done. apply foldl_disco_ajeno.
  intros item Hin Hne. rewrite Forall_forall in Hajena.
  by destruct (Hajena item Hin).
Qed.

Lemma respaldo_no_toca_lo_ajeno_testigo :
  ∃ (archivos : list string) (w' : mundo),
    guardar_backups entorno_disco_sano datos_sin_adopciones reporte_sin_adopciones
      "backups"
      {| disco := {[ "backups/mascotas_20240430_100000.csv" := CSV ["id"] [[VInt 7]] ]};
         directorios := []; lecturas := []; consola := [] |} = (Ok archivos, w') ∧
    disco w' !! "backups/mascotas_20240430_100000.csv" = Some (CSV ["id"] [[VInt 7]]).
Proof.
  destruct (respaldo_no_toca_lo_ajeno entorno_disco_sano datos_sin_adopciones
              reporte_sin_adopciones "backups"
              {| disco := {[ "backups/mascotas_20240430_100000.csv" := CSV ["id"] [[VInt 7]] ]};
                 directorios := []; lecturas := []; consola := [] |})
    as (archivos & w' & Hrun & _ & _ & Hajena).
  exists archivos, w'. split; [exact Hrun|].
  rewrite (Hajena "backups/mascotas_20240430_100000.csv"); [reflexivity| |].
  - unfold datos_sin_adopciones.
    apply Forall_cons; split; [|apply Forall_cons; split; [by left|by apply Forall_nil]].
    right. intros H. vm_compute in H. discriminate H.
  - intros H. vm_compute in H. discriminate H.
Defined.

Lemma no_listado (e : entorno) (dir timestamp : string) (datos : datos_t)
    (reporte : reporte_t) (tabla : string) (registros : list registro)
    (ex : excepcion) :
  NoDup (keys datos) →
  (tabla, registros) ∈ datos →
  fallo_tabla e dir timestamp (tabla, registros) = Some ex →
  ruta_csv e dir timestamp tabla ∉
    omap (archivo_de_tabla e dir timestamp) datos ++
    archivo_de_reporte e dir timestamp reporte.
Proof.
  intros Hnd Hin Hfallo. rewrite not_elem_of_app. split.
  - intros ([t regs] & Hin' & Harch)%list_elem_of_omap.
    apply archivo_de_tabla_Some in Harch as (Heq%ruta_csv_inyectiva & _ & Hok & _).
    simpl in Heq. subst t.
    rewrite (claves_unicas _ _ _ _ Hnd Hin' Hin) in Hok. congruence.
  - unfold archivo_de_reporte. destruct (error_json _ _ _); [apply not_elem_of_nil|].
    rewrite list_elem_of_singleton. apply ruta_csv_no_json.
Qed.

Lemma fallo_en_consola (e : entorno) (dir timestamp : string) (datos : datos_t)
    (tabla : string) (primero : registro) (otros : list registro) (ex : excepcion) :
  (tabla, primero :: otros) ∈ datos →
  fallo_tabla e dir timestamp (tabla, primero :: otros) = Some ex →
  EvErrorTabla tabla ex ∈ evento_de_tabla e dir timestamp <$> datos.
Proof.
  intros Hin Hfallo.
  apply (list_elem_of_fmap_2' _ _ (tabla, primero :: otros)); [done|].
  unfold evento_de_tabla. by rewrite Hfallo.
Qed.

Lemma escritura_truncada (fieldnames : list string) (buenos resto : list registro)
    (malo : registro) :
  Forall (λ r, keys r ⊆ fieldnames) buenos →
  ¬ keys malo ⊆ fieldnames →
  filas_escritas fieldnames (buenos ++ malo :: resto) =
    fila_completa fieldnames <$> buenos ∧
  error_filas fieldnames (buenos ++ malo :: resto) =
    Some (ValueErrorCsv (filter (λ k, k ∉ fieldnames) (keys malo))).
Proof.
  intros Hbuenos Hmalo.
  induction Hbuenos as [|r buenos Hr Hbuenos [IH1 IH2]]; simpl.
  - unfold fila_csv.
    destruct (filter (λ k, k ∉ fieldnames) (keys malo)) as [|k ks] eqn:Hf; [|done].
    destruct Hmalo. intros k Hk.
    destruct (decide (k ∈ fieldnames)) as [|Hno]; [done|].
    destruct (filter_nil_not_elem_of (λ k, k ∉ fieldnames) _ k Hf Hno Hk).
  - by rewrite (fila_csv_ok _ _ Hr), IH1, IH2.
Qed.

(** X13. Una fila con columnas que la primera fila no tiene corta el CSV de
    su tabla: el archivo queda en disco con el encabezado y las filas
    anteriores, pero su ruta no está en la lista devuelta, y en consola queda
    el error de esa tabla con las columnas sobrantes. *)
Theorem csv_cortado_por_columnas_sobrantes (e : entorno) (datos : datos_t)
    (reporte : reporte_t) (dir : string) (w : mundo) (tabla : string)
    (primero malo : registro) (buenos resto : list registro) :
  NoDup (keys datos) →
  (tabla, (primero :: buenos) ++ malo :: resto) ∈ datos →
  abre e (ruta_csv e dir (ahora_archivo e) tabla) = true →
  Forall (λ r, keys r ⊆ keys primero) buenos →
  ¬ keys malo ⊆ keys primero →
  ∃ (archivos : list string) (w' : mundo),
    guardar_backups e datos reporte dir w = (Ok archivos, w') ∧
    (ruta_csv e dir (ahora_archivo e) tabla ∉ archivos) ∧
    disco w' !! ruta_csv e dir (ahora_archivo e) tabla =
      Some (CSV (keys primero) (fila_completa (keys primero) <$> (primero :: buenos))) ∧
    EvErrorTabla tabla
      (ValueErrorCsv (filter (λ k, k ∉ keys primero) (keys malo))) ∈ consola w'.
Proof.
  intros Hnd Hin Habre Hbuenos Hmalo.
  assert (Forall (λ r, keys r ⊆ keys primero) (primero :: buenos)) as Hprevias.
  { by apply Forall_cons. }
  destruct (escritura_truncada (keys primero) (primero :: buenos) resto malo
              Hprevias Hmalo) as [Hfilas Herror].
  assert (fallo_tabla e dir (ahora_archivo e)
            (tabla, (primero :: buenos) ++ malo :: resto) =
          Some (ValueErrorCsv (filter (λ k, k ∉ keys primero) (keys malo)))) as Hfallo.
  { unfold fallo_tabla, error_csv. cbn [snd fst app]. rewrite Habre. exact Herror. }
  eexists _, _. split; [apply guardar_backups_spec|].
  rewrite disco_efecto, consola_efecto. split_and!.
  - by eapply no_listado.
  - rewrite disco_tras_reporte_otro by apply ruta_csv_no_json.
    rewrite (foldl_disco_tabla _ _ _ _ _ _ primero (buenos ++ malo :: resto) Hnd Hin Habre).
    by rewrite <-Hfilas.
  - rewrite !elem_of_app. right. left.
    by apply (fallo_en_consola _ _ _ _ _ primero (buenos ++ malo :: resto)).
Qed.

Lemma csv_cortado_por_columnas_sobrantes_testigo :
  ∃ w' : mundo,
    guardar_backups entorno_disco_sano
      [("mascotas", [[("id", VInt 1); ("edad", VInt 3)];
                     [("edad", VInt 4)];
                     [("id", VInt 3); ("edad", VInt 5); ("chip", VStr "X1")];
                     [("id", VInt 4); ("edad", VInt 6)]])]
      reporte_vacio "backups" mundo_inicial =
      (Ok ["backups/reporte_calidad_20240501_100000.json"], w') ∧
    disco w' !! "backups/mascotas_20240501_100000.csv" =
      Some (CSV ["id"; "edad"] [[VInt 1; VInt 3]; [VStr String.EmptyString; VInt 4]]) ∧
    EvErrorTabla "mascotas" (ValueErrorCsv ["chip"]) ∈ consola w'.
Proof.
  destruct (csv_cortado_por_columnas_sobrantes entorno_disco_sano
      [("mascotas", [[("id", VInt 1); ("edad", VInt 3)];
                     [("edad", VInt 4)];
                     [("id", VInt 3); ("edad", VInt 5); ("chip", VStr "X1")];
                     [("id", VInt 4); ("edad", VInt 6)]])]
      reporte_vacio "backups" mundo_inicial "mascotas"
      [("id", VInt 1); ("edad", VInt 3)]
      [("id", VInt 3); ("edad", VInt 5); ("chip", VStr "X1")]
      [[("edad", VInt 4)]] [[("id", VInt 4); ("edad", VInt 6)]])
    as (archivos & w' & Hrun & _ & Hdisco & Hev).
  - apply NoDup_singleton.
  - by left.
  - reflexivity.
  - apply Forall_cons. split; [|by apply Forall_nil].
    intros k [->|[]%elem_of_nil]%elem_of_cons. right. by left.
  - intros Hsub. specialize (Hsub "chip"). cbn in Hsub.
    assert ("chip" ∈ ["id"; "edad"]) as Hin by (apply Hsub; by do 2 right; left).
    apply elem_of_cons in Hin as [[=]|Hin].
    apply elem_of_cons in Hin as [[=]|Hin]. by apply elem_of_nil in Hin.
  - exists w'. split_and!; [|exact Hdisco|exact Hev].
    rewrite Hrun. vm_compute in Hrun. by injection Hrun as <- _.
Defined.

Lemma foldl_disco_cerrado (e : entorno) (dir timestamp : string) (items : datos_t) :
  ∀ (d : gmap string contenido) (ruta : string),
    abre e ruta = false →
    foldl (disco_tras_tabla e dir timestamp) d items !! ruta = d !! ruta.
Proof.
  induction items as [|item resto IH]; intros d ruta Hcerrado; [done|].
  simpl. rewrite IH by done. unfold disco_tras_tabla.
  destruct item.2; [done|].
  destruct (abre e (ruta_csv e dir timestamp item.1)) eqn:Habre; [|done].
  rewrite lookup_insert_ne; [done|]. intros Heq. congruence.
Qed.

(** X14. Si el disco no deja abrir el CSV de una tabla no vacía, no se crea
    ningún archivo en esa ruta, la ruta no está en la lista devuelta y en
    consola queda el error de esa tabla. *)
Theorem csv_que_no_abre (e : entorno) (datos : datos_t) (reporte : reporte_t)
    (dir : string) (w : mundo) (tabla : string) (primero : registro)
    (otros : list registro) :
  NoDup (keys datos) →
  (tabla, primero :: otros) ∈ datos →
  abre e (ruta_csv e dir (ahora_archivo e) tabla) = false →
  ∃ (archivos : list string) (w' : mundo),
    guardar_backups e datos reporte dir w = (Ok archivos, w') ∧
    (ruta_csv e dir (ahora_archivo e) tabla ∉ archivos) ∧
    disco w' !! ruta_csv e dir (ahora_archivo e) tabla =
      disco w !! ruta_csv e dir (ahora_archivo e) tabla ∧
    EvErrorTabla tabla (OSError (ruta_csv e dir (ahora_archivo e) tabla)) ∈ consola w'.
Proof.
  intros Hnd Hin Hcerrado.
  assert (fallo_tabla e dir (ahora_archivo e) (tabla, primero :: otros) =
          Some (OSError (ruta_csv e dir (ahora_archivo e) tabla))) as Hfallo.
  { unfold fallo_tabla, error_csv. cbn [snd fst]. by rewrite Hcerrado. }
  eexists _, _. split; [apply guardar_backups_spec|].
  rewrite disco_efecto, consola_efecto. split_and!.
  - by eapply no_listado.
  - rewrite disco_tras_reporte_otro by apply ruta_csv_no_json.
    by apply foldl_disco_cerrado.
  - rewrite !elem_of_app. right. left. by eapply fallo_en_consola.
Qed.

Lemma csv_que_no_abre_testigo :
  ∃ (archivos : list string) (w' : mundo),
    guardar_backups entorno_disco_parcial
      [("mascotas", [[("id", VInt 1); ("edad", VInt 3)]]);
       ("adopciones", [[("id", VInt 1); ("mascota_id", VInt 1)]])]
      reporte_vacio "backups" mundo_inicial = (Ok archivos, w') ∧
    ("backups/mascotas_20240501_100000.csv" ∉ archivos) ∧
    disco w' !! "backups/mascotas_20240501_100000.csv" = None.
Proof.
  destruct (csv_que_no_abre entorno_disco_parcial
      [("mascotas", [[("id", VInt 1); ("edad", VInt 3)]]);
       ("adopciones", [[("id", VInt 1); ("mascota_id", VInt 1)]])]
      reporte_vacio "backups" mundo_inicial "mascotas"
      [("id", VInt 1); ("edad", VInt 3)] [])
    as (archivos & w' & Hrun & Hno & Hdisco & _).
  - apply NoDup_cons. split; [|apply NoDup_singleton].
    by intros [=]%list_elem_of_singleton.
  - by left.
  - reflexivity.
  - by exists archivos, w'.
Defined.




(** X16. Un reporte que [json.dump] no puede serializar sólo cuesta el
    archivo del reporte: la lista devuelta es la de la corrida con un reporte
    serializable menos la ruta del reporte, los demás archivos del disco son
    los mismos, el JSON queda truncado y la última línea de consola es el
    error del reporte. *)
Theorem reporte_no_serializable_aislado (e : entorno) (datos : datos_t)
    (malo bueno : reporte_t) (dir : string) (w : mundo) :
  reporte_serializable malo = false →
  reporte_serializable bueno = true →
  abre e (ruta_json e dir (ahora_archivo e)) = true →
  ∃ (archivos : list string) (w1 w2 : mundo),
    guardar_backups e datos malo dir w = (Ok archivos, w1) ∧
    guardar_backups e datos bueno dir w =
      (Ok (archivos ++ [ruta_json e dir (ahora_archivo e)]), w2) ∧
    (ruta_json e dir (ahora_archivo e) ∉ archivos) ∧
    disco w1 !! ruta_json e dir (ahora_archivo e) = Some Truncado ∧
    (∀ ruta, ruta ≠ ruta_json e dir (ahora_archivo e) →
             disco w1 !! ruta = disco w2 !! ruta) ∧
    last (consola w1) = Some (EvErrorReporte TypeError).
Proof.
  intros Hmalo Hbueno Habre.
  assert (error_json e (ruta_json e dir (ahora_archivo e)) malo = Some TypeError) as Hm.
  { unfold error_json. by rewrite Habre, Hmalo. }
  assert (error_json e (ruta_json e dir (ahora_archivo e)) bueno = None) as Hb.
  { unfold error_json. by rewrite Habre, Hbueno. }
  exists (omap (archivo_de_tabla e dir (ahora_archivo e)) datos). eexists _, _.
  split_and!.
  - rewrite guardar_backups_spec. unfold archivo_de_reporte. rewrite Hm.
    by rewrite app_nil_r.
  - rewrite guardar_backups_spec. unfold archivo_de_reporte. by rewrite Hb.
  - intros (item & _ & Harch)%list_elem_of_omap.
    apply archivo_de_tabla_Some in Harch as (Heq & _).
    symmetry in Heq. by apply ruta_csv_no_json in Heq.
  - rewrite disco_efecto. unfold disco_tras_reporte.
    by rewrite Habre, Hmalo, lookup_insert_eq.
  - intros ruta Hne. rewrite !disco_efecto.
    by rewrite !disco_tras_reporte_otro.
  - rewrite consola_efecto, app_assoc, last_snoc.
    unfold evento_de_reporte. by rewrite Hm.
Qed.

Lemma reporte_no_serializable_aislado_testigo :
  ∃ (archivos : list string) (w1 : mundo),
    guardar_backups entorno_disco_sano
      [("mascotas", [[("id", VFecha "2024-01-01 00:00:00"); ("edad", VInt 40)]])]
      {| timestamp := "2024-05-01T10:00:00";
         estadisticas := {| total_mascotas := 1; mascotas_adoptadas := 0;
                            total_adopciones := 0 |};
         problemas := [ {| tipo := "edad_invalida"; tabla := "mascotas";
                           id := VFecha "2024-01-01 00:00:00";
                           valor_actual := Some (VInt 40);
                           mensaje := "Edad 40 fuera de rango (0-30)" |} ] |}
      "backups" mundo_inicial = (Ok archivos, w1) ∧
    archivos = ["backups/mascotas_20240501_100000.csv"] ∧
    disco w1 !! "backups/reporte_calidad_20240501_100000.json" = Some Truncado.
Proof.
  destruct (reporte_no_serializable_aislado entorno_disco_sano
      [("mascotas", [[("id", VFecha "2024-01-01 00:00:00"); ("edad", VInt 40)]])]
      {| timestamp := "2024-05-01T10:00:00";
         estadisticas := {| total_mascotas := 1; mascotas_adoptadas := 0;
                            total_adopciones := 0 |};
         problemas := [ {| tipo := "edad_invalida"; tabla := "mascotas";
                           id := VFecha "2024-01-01 00:00:00";
                           valor_actual := Some (VInt 40);
                           mensaje := "Edad 40 fuera de rango (0-30)" |} ] |}
      reporte_vacio "backups" mundo_inicial)
    as (archivos & w1 & w2 & Hrun & _ & _ & Hdisco & _).
  - reflexivity.
  - reflexivity.
  - reflexivity.
  - exists archivos, w1. split; [exact Hrun|]. split; [|exact Hdisco].
    vm_compute in Hrun. by injection Hrun as <- _.
Defined.





(** * Más propiedades de [ejecutar_pipeline] *)

Lemma ejecutar_pipeline_TypeError (e : entorno) (w : mundo)
    (mascotas adopciones : list registro) :
  existe_bd e = true →
  almacen e !! "mascotas" = Some mascotas →
  almacen e !! "adopciones" = Some adopciones →
  ¬ edades_comparables mascotas →
  ejecutar_pipeline e w =
    (Ok false, mundo_tras_error_de_datos e mascotas adopciones TypeError w).
Proof.
  intros Hbd Hm Ha Hno.
  destruct (buscar_datos_extraidos e mascotas adopciones) as [Hm' Ha'].
  pose proof (transformar_datos_TypeError (ahora_iso e) _ _ _ Hm' Ha' Hno) as Htrans.
  unfold ejecutar_pipeline, try_except, bind at 1, configurar_rutas.
  rewrite Hbd. simpl. unfold bind at 1. simpl. unfold bind at 1.
  rewrite (extraer_datos_ok _ _ _ _ Hm Ha).
  unfold bind at 1, lift. rewrite (subindice_Ok _ _ _ Hm').
  unfold bind at 1. rewrite (subindice_Ok _ _ _ Ha').
  unfold bind at 1, print at 1. simpl.
  unfold bind at 1. rewrite Htrans.
  unfold bind, print, ret, mundo_tras_error_de_datos. simpl.
  by rewrite <-!app_assoc.
Qed.

Lemma faltantes_no_vacio (e : entorno) :
  almacen e !! "mascotas" = None ∨ almacen e !! "adopciones" = None →
  tablas_requeridas ∖ dom (almacen e) ≠ ∅.
Proof.
  intros Hfalta Hvacio.
  destruct Hfalta as [H|H].
  - apply (not_elem_of_empty (C:=gset string) "mascotas"). rewrite <-Hvacio.
    apply elem_of_faltantes. split; [by left|done].
  - apply (not_elem_of_empty (C:=gset string) "adopciones"). rewrite <-Hvacio.
    apply elem_of_faltantes. split; [by right|done].
Qed.

(** Los cuatro desenlaces de una corrida. *)
Lemma ejecutar_pipeline_casos (e : entorno) (w : mundo) :
  (existe_bd e = false ∧
   ∃ ruta, ejecutar_pipeline e w =
             (Ok false, con_error_de_pipeline (FileNotFoundError ruta) [] w)) ∨
  (existe_bd e = true ∧
   (almacen e !! "mascotas" = None ∨ almacen e !! "adopciones" = None) ∧
   ejecutar_pipeline e w =
     (Ok false,
      con_error_de_pipeline (ValueErrorTablas (tablas_requeridas ∖ dom (almacen e)))
        [unir e (unir e proyecto_path "pipeline") "backups"] w)) ∨
  (existe_bd e = true ∧
   ∃ mascotas adopciones,
     almacen e !! "mascotas" = Some mascotas ∧
     almacen e !! "adopciones" = Some adopciones ∧
     ¬ edades_comparables mascotas ∧
     ejecutar_pipeline e w =
       (Ok false, mundo_tras_error_de_datos e mascotas adopciones TypeError w)) ∨
  (existe_bd e = true ∧
   ∃ mascotas adopciones reporte archivos w1,
     almacen e !! "mascotas" = Some mascotas ∧
     almacen e !! "adopciones" = Some adopciones ∧
     edades_comparables mascotas ∧
     transformar_datos (ahora_iso e) (datos_extraidos e mascotas adopciones) =
       Ok (datos_extraidos e mascotas adopciones, reporte) ∧
     guardar_backups e (datos_extraidos e mascotas adopciones) reporte
       (unir e (unir e proyecto_path "pipeline") "backups")
       (mundo_tras_validar e mascotas adopciones reporte w) = (Ok archivos, w1) ∧
     ejecutar_pipeline e w =
       (Ok true, efecto (disco w1) [EvCompletado archivos (estadisticas reporte)] w1)).
Proof.
  destruct (existe_bd e) eqn:Hbd; [|left; split; [done|by apply ejecutar_pipeline_sin_bd]].
  right.
  destruct (almacen e !! "mascotas") as [mascotas|] eqn:Hm;
    [destruct (almacen e !! "adopciones") as [adopciones|] eqn:Ha|].
  - right. destruct (decide (edades_comparables mascotas)) as [Hc|Hno].
    + right. split; [done|].
      destruct (ejecutar_pipeline_ok e w _ _ Hbd Hm Ha Hc)
        as (reporte & archivos & w1 & ? & ? & ?).
      by exists mascotas, adopciones, reporte, archivos, w1.
    + left. split; [done|]. exists mascotas, adopciones.
      split_and!; [done..|]. by apply ejecutar_pipeline_TypeError.
  - left. split; [done|]. split; [by right|].
    apply ejecutar_pipeline_faltantes; [done|].
    apply faltantes_no_vacio. by right.
  - left. split; [done|]. split; [by left|].
    apply ejecutar_pipeline_faltantes; [done|].
    apply faltantes_no_vacio. by left.
Qed.


(** X19. Una corrida que devuelve [False] no deja nada en el disco: el disco
    queda como estaba y la última línea de consola es el error. *)
Theorem corrida_fallida_sin_archivos (e : entorno) (w w' : mundo) :
  ejecutar_pipeline e w = (Ok false, w') →
  disco w' = disco w ∧ ∃ ex, last (consola w') = Some (EvErrorPipeline ex).
Proof.
  intros Hrun.
  destruct (ejecutar_pipeline_casos e w)
    as [(Hbd & ruta & Heq)|[(Hbd & Hfalta & Heq)|
        [(Hbd & ms & ads & Hm & Ha & Hno & Heq)|
         (Hbd & ms & ads & r & archivos & w1 & Hm & Ha & Hc & _ & _ & Heq)]]];
    rewrite Heq in Hrun; simplify_eq; (split; [done|]); eexists; simpl;
    by rewrite last_app.
Qed.

Lemma corrida_fallida_sin_archivos_testigo :
  ∃ w' : mundo,
    ejecutar_pipeline entorno_edad_nula
      {| disco := {[ "backups/mascotas_20240430_100000.csv" := CSV ["id"] [[VInt 7]] ]};
         directorios := []; lecturas := []; consola := [] |} = (Ok false, w') ∧
    disco w' = {[ "backups/mascotas_20240430_100000.csv" := CSV ["id"] [[VInt 7]] ]}.
Proof.
  eexists. split; [reflexivity|].
  exact (proj1 (corrida_fallida_sin_archivos entorno_edad_nula
           {| disco := {[ "backups/mascotas_20240430_100000.csv" := CSV ["id"] [[VInt 7]] ]};
              directorios := []; lecturas := []; consola := [] |} _ eq_refl)).
Defined.

Lemma disco_cerrado_intacto (e : entorno) (dir timestamp : string) (datos : datos_t)
    (r : reporte_t) (d : gmap string contenido) :
  (∀ ruta, abre e ruta = false) →
  disco_tras_reporte e dir timestamp r
    (foldl (disco_tras_tabla e dir timestamp) d datos) = d ∧
  omap (archivo_de_tabla e dir timestamp) datos = [] ∧
  archivo_de_reporte e dir timestamp r = [].
Proof.
  intros Hcerrado. split_and!.
  - unfold disco_tras_reporte. rewrite Hcerrado. apply map_eq. intros ruta.
    by apply foldl_disco_cerrado.
  - induction datos as [|item resto IH]; [done|].
    rewrite omap_cons_eq, IH.
    destruct (archivo_de_tabla e dir timestamp item) eqn:Harch; [|done].
    apply archivo_de_tabla_Some in Harch as (_ & _ & _ & Habre).
    by rewrite Hcerrado in Habre.
  - unfold archivo_de_reporte, error_json. by rewrite Hcerrado.
Qed.

(** X20. La corrida termina con [True] aunque no se escriba nada: con la
    base de datos, las dos tablas y edades numéricas, si el disco rechaza
    toda escritura el resultado sigue siendo [True], el disco queda como
    estaba y el resumen final lista cero archivos. *)
Theorem exito_sin_archivos (e : entorno) (w : mundo)
    (mascotas adopciones : list registro) :
  existe_bd e = true →
  almacen e !! "mascotas" = Some mascotas →
  almacen e !! "adopciones" = Some adopciones →
  edades_comparables mascotas →
  (∀ ruta, abre e ruta = false) →
  ∃ (w' : mundo) (est : estadisticas_t),
    ejecutar_pipeline e w = (Ok true, w') ∧
    disco w' = disco w ∧
    last (consola w') = Some (EvCompletado [] est).
Proof.
  intros Hbd Hm Ha Hc Hcerrado.
  destruct (ejecutar_pipeline_ok e w _ _ Hbd Hm Ha Hc)
    as (reporte & archivos & w1 & _ & Hguardar & Hrun).
  rewrite guardar_backups_spec in Hguardar.
  destruct (disco_cerrado_intacto e
              (unir e (unir e proyecto_path "pipeline") "backups")
              (ahora_archivo e) (datos_extraidos e mascotas adopciones) reporte
              (disco (mundo_tras_validar e mascotas adopciones reporte w)) Hcerrado)
    as (Hd & Ht & Hr).
  rewrite Hd, Ht, Hr in Hguardar. injection Hguardar as <- <-.
  eexists _, _. split; [exact Hrun|]. rewrite disco_efecto, consola_efecto, last_snoc.
  by split.
Qed.

Lemma exito_sin_archivos_testigo :
  ∃ (w' : mundo) (est : estadisticas_t),
    ejecutar_pipeline entorno_refugio_tarde mundo_inicial = (Ok true, w') ∧
    disco w' = ∅ ∧
    last (consola w') = Some (EvCompletado [] est).
Proof.
  apply (exito_sin_archivos entorno_refugio_tarde mundo_inicial
           [[("id", VInt 1); ("edad", VInt 35); ("adoptado", VBool true)];
            [("id", VInt 2); ("edad", VInt 3); ("adoptado", VBool false)]]
           [[("id", VInt 1); ("mascota_id", VInt 1)];
            [("id", VInt 2); ("mascota_id", VInt 99)]]).
  - reflexivity.
  - reflexivity.
  - reflexivity.
  - repeat constructor; by eexists.
  - reflexivity.
Defined.


(** X22. El resumen final de una corrida exitosa es veraz: todo archivo que
    lista existe en el disco, y las estadísticas que muestra cuentan las
    filas del almacén. *)
Theorem resumen_final_veraz (e : entorno) (w w' : mundo) :
  ejecutar_pipeline e w = (Ok true, w') →
  ∃ (archivos : list string) (est : estadisticas_t)
    (mascotas adopciones : list registro),
    last (consola w') = Some (EvCompletado archivos est) ∧
    Forall (λ ruta, is_Some (disco w' !! ruta)) archivos ∧
    almacen e !! "mascotas" = Some mascotas ∧
    almacen e !! "adopciones" = Some adopciones ∧
    total_mascotas est = length mascotas ∧
    total_adopciones est = length adopciones ∧
    (mascotas_adoptadas est ≤ length mascotas)%nat.
Proof.
  intros Hrun.
  destruct (ejecutar_pipeline_casos e w)
    as [(Hbd & ruta & Heq)|[(Hbd & Hfalta & Heq)|
        [(Hbd & ms & ads & Hm & Ha & Hno & Heq)|
         (Hbd & ms & ads & r & archivos & w1 & Hm & Ha & Hc & Htrans & Hguardar & Heq)]]];
    rewrite Heq in Hrun; simplify_eq.
  destruct (buscar_datos_extraidos e ms ads) as [Hm' Ha'].
  rewrite (transformar_datos_ok _ _ _ _ Hm' Ha' Hc) in Htrans.
  injection Htrans as <-.
  rewrite guardar_backups_spec in Hguardar. injection Hguardar as <- <-.
  exists (omap (archivo_de_tabla e (unir e (unir e proyecto_path "pipeline") "backups")
                  (ahora_archivo e)) (datos_extraidos e ms ads) ++
          archivo_de_reporte e (unir e (unir e proyecto_path "pipeline") "backups")
            (ahora_archivo e)
            {| timestamp := ahora_iso e; estadisticas := estadisticas_de ms ads;
               problemas := mjoin (aportes_edad 0 ms) ++
                            mjoin (aporte_relacion (ids_mascotas ms) <$> ads) |}),
         (estadisticas_de ms ads), ms, ads.
  rewrite consola_efecto, last_snoc, !disco_efecto.
  split_and!; [done| |done|done|done|done|].
  - apply Forall_forall. intros ruta [Hin|Hin]%elem_of_app.
    + by apply disco_tras_reporte_conserva, foldl_archivos_en_disco.
    + eapply archivo_de_reporte_en_disco in Hin as [_ ->]. done.
  - cbn [estadisticas_de mascotas_adoptadas]. rewrite contar_adoptadas_filter.
    apply length_filter.
Qed.

Lemma resumen_final_veraz_testigo :
  ∃ (w' : mundo) (archivos : list string) (est : estadisticas_t),
    ejecutar_pipeline entorno_refugio mundo_inicial = (Ok true, w') ∧
    last (consola w') = Some (EvCompletado archivos est) ∧
    Forall (λ ruta, is_Some (disco w' !! ruta)) archivos ∧
    total_mascotas est = 2%nat ∧ total_adopciones est = 2%nat.
Proof.
  assert (almacen entorno_refugio !! "mascotas" =
            Some [[("id", VInt 1); ("edad", VInt 35); ("adoptado", VBool true)];
                  [("id", VInt 2); ("edad", VInt 3); ("adoptado", VBool false)]])
    as Hm0 by reflexivity.
  assert (almacen entorno_refugio !! "adopciones" =
            Some [[("id", VInt 1); ("mascota_id", VInt 1)];
                  [("id", VInt 2); ("mascota_id", VInt 99)]])
    as Ha0 by reflexivity.
  destruct (ejecutar_pipeline_ok entorno_refugio mundo_inicial _ _ eq_refl Hm0 Ha0)
    as (r & archivos0 & w1 & _ & _ & Hrun).
  { repeat constructor; by eexists. }
  destruct (resumen_final_veraz entorno_refugio mundo_inicial _ Hrun)
    as (archivos & est & ms & ads & Hlast & Hdisco & Hm & Ha & Htm & Hta & _).
  rewrite Hm0 in Hm. rewrite Ha0 in Ha. injection Hm as <-. injection Ha as <-.
  eexists _, archivos, est. split; [exact Hrun|]. by split_and!.
Defined.
